(** * clive: struct-tag driven construction of urfave/cli applications

    A shallow embedding of [clive.go] (package [clive]) and the properties
    of its tag parser, flag synthesizer, command synthesizer, application
    builder and value extractor.

    Conventions of the embedding.
    - Go strings are [string]s of bytes.  The package only ever compares
      bytes against the ASCII characters ['], [,] and [:], which never occur
      inside a multi-byte UTF-8 sequence, so iterating bytes instead of runes
      gives the same spans.
    - [int] and [uint] are 64 bits wide ([intSize]).  Integers are [Z] and
      every Go conversion is written as an explicit wrap.
    - A Go function returning [(T, error)] is a pair [T * option error] where
      the source reads both components, and a [result] where the callers
      only look at the value when the error is nil.  [panic] is an outcome
      of its own. *)

From Stdlib Require Import String Ascii List ZArith Bool Lia.
Import ListNotations.

Local Open Scope string_scope.
Local Open Scope list_scope.

(** ** Errors *)

(** The two sentinel errors of [strconv]. *)
Inductive NumErrKind : Type :=
| ErrSyntax
| ErrRange.

(** [error] values built by this package: [errors.New] / [errors.Errorf]
    (a formatted message), [errors.Wrap] (a cause and a message) and
    [*strconv.NumError] (function, input and sentinel). *)
Inductive error : Type :=
| ErrNew (msg : string)
| ErrWrap (cause : error) (msg : string)
| ErrNum (func num : string) (kind : NumErrKind).

(** What a [panic] carries: an [error], a string, or one of the run-time
    panics of package [reflect]. *)
Inductive panicValue : Type :=
| PanicErr (e : error)
| PanicStr (s : string)
| PanicReflect (s : string).

Inductive result (A : Type) : Type :=
| Ok (a : A)
| Err (e : error)
| Panic (p : panicValue).
Arguments Ok {A} a.
Arguments Err {A} e.
Arguments Panic {A} p.

Definition isOk {A} (r : result A) : bool :=
  match r with Ok _ => true | _ => false end.

Definition syntaxError (fn str : string) : error := ErrNum fn str ErrSyntax.
Definition rangeError (fn str : string) : error := ErrNum fn str ErrRange.

(** [Error()] of the values above.  [strconv.Quote] is written for inputs
    without characters that need escaping. *)
Definition dquote : string := String (ascii_of_nat 34) EmptyString.

Fixpoint errorText (e : error) : string :=
  match e with
  | ErrNew msg => msg
  | ErrWrap cause msg => msg ++ ": " ++ errorText cause
  | ErrNum fn num k =>
      "strconv." ++ fn ++ ": parsing " ++ dquote ++ num ++ dquote ++ ": "
      ++ match k with
         | ErrSyntax => "invalid syntax"
         | ErrRange => "value out of range"
         end
  end.

(** ** Package [strings] *)

Module strings.

Definition HasPrefix (s prefix : string) : bool := String.prefix prefix s.

Fixpoint drop (n : nat) (s : string) : string :=
  match n, s with
  | O, _ => s
  | S n', String _ r => drop n' r
  | S _, EmptyString => EmptyString
  end.

Definition TrimPrefix (s prefix : string) : string :=
  if HasPrefix s prefix then drop (String.length prefix) s else s.

Fixpoint inCutset (c : ascii) (cutset : string) : bool :=
  match cutset with
  | EmptyString => false
  | String d r => Ascii.eqb c d || inCutset c r
  end.

Fixpoint TrimLeft (s cutset : string) : string :=
  match s with
  | EmptyString => EmptyString
  | String c r => if inCutset c cutset then TrimLeft r cutset else s
  end.

(** [TrimRight] as a right fold: a character is dropped when it is in the
    cut set and everything after it has been dropped. *)
Fixpoint TrimRight (s cutset : string) : string :=
  match s with
  | EmptyString => EmptyString
  | String c r =>
      match TrimRight r cutset with
      | EmptyString => if inCutset c cutset then EmptyString else String c EmptyString
      | t => String c t
      end
  end.

Definition Trim (s cutset : string) : string :=
  TrimRight (TrimLeft s cutset) cutset.

(** [Split s sep] for a one-byte separator, which is what every call site
    of the package passes: all the pieces between separators, empty ones
    included; [Split "" sep] is [[""]]. *)
Fixpoint Split (s : string) (sep : ascii) : list string :=
  match s with
  | EmptyString => [EmptyString]
  | String c r =>
      if Ascii.eqb c sep then EmptyString :: Split r sep
      else match Split r sep with
           | h :: t => String c h :: t
           | [] => [String c EmptyString]
           end
  end.

(** [Cut s sep]: the text before and after the first [sep], if any. *)
Fixpoint Cut (s : string) (sep : ascii) : option (string * string) :=
  match s with
  | EmptyString => None
  | String c r =>
      if Ascii.eqb c sep then Some (EmptyString, r)
      else match Cut r sep with
           | Some (a, b) => Some (String c a, b)
           | None => None
           end
  end.

(** [SplitN s sep n] for [n >= 0] and a one-byte separator: at most [n]
    pieces, the last one holding the unsplit remainder. *)
Fixpoint SplitN (s : string) (sep : ascii) (n : nat) : list string :=
  match n with
  | O => []
  | S O => [s]
  | S k =>
      match Cut s sep with
      | None => [s]
      | Some (a, b) => a :: SplitN b sep k
      end
  end.

Definition isUpper (c : ascii) : bool :=
  (65 <=? nat_of_ascii c)%nat && (nat_of_ascii c <=? 90)%nat.

Definition lowerByte (c : ascii) : ascii :=
  if isUpper c then ascii_of_nat (nat_of_ascii c + 32) else c.

(** [ToLower] on ASCII letters; bytes outside ASCII are kept (Go maps the
    runes with [unicode.ToLower], which agrees on ASCII identifiers). *)
Fixpoint ToLower (s : string) : string :=
  match s with
  | EmptyString => EmptyString
  | String c r => String (lowerByte c) (ToLower r)
  end.

(** [FieldsFunc s f]: the maximal runs of [s] on which [f] answers false.
    The library walks [s] once from left to right and calls [f] exactly
    once per character, in order; the closure that [parseMeta] passes
    keeps a variable between calls, so [f] threads a state [St] here.
    [cur] is the field being collected (Go: [start >= 0] iff it is not
    empty). *)
Fixpoint FieldsFunc_loop {St : Type} (f : St -> ascii -> St * bool)
         (st : St) (cur : string) (s : string) : list string :=
  match s with
  | EmptyString =>
      match cur with EmptyString => [] | _ => [cur] end
  | String c r =>
      let '(st', sep) := f st c in
      if sep then
        match cur with
        | EmptyString => FieldsFunc_loop f st' EmptyString r
        | _ => cur :: FieldsFunc_loop f st' EmptyString r
        end
      else FieldsFunc_loop f st' (cur ++ String c EmptyString) r
  end.

Definition FieldsFunc {St : Type} (s : string)
           (f : St -> ascii -> St * bool) (st : St) : list string :=
  FieldsFunc_loop f st EmptyString s.

End strings.

(** ** Package [strconv] *)

Module strconv.

Definition intSize : Z := 64.

(** [ParseBool]: the twelve accepted spellings, anything else is a
    syntax error (and the value [false]). *)
Definition ParseBool (str : string) : bool * option error :=
  if existsb (String.eqb str) ["1"; "t"; "T"; "TRUE"; "true"; "True"]
  then (true, None)
  else if existsb (String.eqb str) ["0"; "f"; "F"; "FALSE"; "false"; "False"]
  then (false, None)
  else (false, Some (syntaxError "ParseBool" str)).

Definition isDigit (c : ascii) : bool :=
  (48 <=? nat_of_ascii c)%nat && (nat_of_ascii c <=? 57)%nat.

Definition digitVal (c : ascii) : Z := Z.of_nat (nat_of_ascii c) - 48.

Definition maxUint64 : Z := 2 ^ 64 - 1.

(** The digit loop of [ParseUint] in base 10: any byte that is not a
    decimal digit is a syntax error with value 0; overflow stops the
    loop at once with [maxVal] and a range error. *)
Fixpoint ParseUint_loop (maxVal : Z) (n : Z) (s : string) : Z * option NumErrKind :=
  match s with
  | EmptyString => (n, None)
  | String c r =>
      if isDigit c then
        let d := digitVal c in
        let cutoff := (maxUint64 / 10 + 1)%Z in
        if (cutoff <=? n)%Z then (maxVal, Some ErrRange)
        else
          let n10 := ((n * 10) mod 2 ^ 64)%Z in
          let n1 := ((n10 + d) mod 2 ^ 64)%Z in
          if (n1 <? n10)%Z || (maxVal <? n1)%Z then (maxVal, Some ErrRange)
          else ParseUint_loop maxVal n1 r
      else (0%Z, Some ErrSyntax)
  end.

(** [ParseUint s 10 bitSize] with [bitSize] 0 (the width of [int]) or 64;
    the outcome is the value and the sentinel, the caller names the
    function in the error. *)
Definition ParseUint_kind (s : string) (bitSize : Z) : Z * option NumErrKind :=
  match s with
  | EmptyString => (0%Z, Some ErrSyntax)
  | _ =>
      let bitSize := if (bitSize =? 0)%Z then intSize else bitSize in
      ParseUint_loop (2 ^ bitSize - 1)%Z 0%Z s
  end.

Definition withFunc (fn s : string) (r : Z * option NumErrKind) : Z * option error :=
  (fst r, option_map (ErrNum fn s) (snd r)).

Definition ParseUint (s : string) (bitSize : Z) : Z * option error :=
  withFunc "ParseUint" s (ParseUint_kind s bitSize).

(** [ParseInt s 10 bitSize]: an optional sign, then [ParseUint]; a syntax
    error gives 0, a magnitude beyond the range gives the nearest bound
    together with a range error. *)
Definition ParseInt_kind (s0 : string) (bitSize : Z) : Z * option NumErrKind :=
  match s0 with
  | EmptyString => (0%Z, Some ErrSyntax)
  | String c r =>
      let neg := Ascii.eqb c "-" in
      let s := if Ascii.eqb c "+" || neg then r else s0 in
      let '(un, err) := ParseUint_kind s bitSize in
      match err with
      | Some ErrSyntax => (0%Z, Some ErrSyntax)
      | _ =>
          let bitSize := if (bitSize =? 0)%Z then intSize else bitSize in
          let cutoff := (2 ^ (bitSize - 1))%Z in
          if negb neg && (cutoff <=? un)%Z then ((cutoff - 1)%Z, Some ErrRange)
          else if neg && (cutoff <? un)%Z then ((- cutoff)%Z, Some ErrRange)
          else (if neg then (- un)%Z else un, None)
      end
  end.

Definition ParseInt (s : string) (bitSize : Z) : Z * option error :=
  withFunc "ParseInt" s (ParseInt_kind s bitSize).

(** [Atoi s] is [ParseInt s 10 0] converted to [int], the error renamed. *)
Definition Atoi (s : string) : Z * option error :=
  withFunc "Atoi" s (ParseInt_kind s 0).

End strconv.

(** ** Tag metadata: [commandMetadata] and [parseMeta] *)

Record commandMetadata : Type := mkMeta {
  meta_Name : string;
  meta_Usage : string;
  meta_Hidden : bool;
  meta_Default : string
}.

(** The zero value of [commandMetadata], which [parseMeta] starts from. *)
Definition zeroMeta : commandMetadata := mkMeta "" "" false "".

Definition quoteChar : ascii := "'"%char.
Definition commaChar : ascii := ","%char.
Definition colonChar : ascii := ":"%char.

(** The closure handed to [strings.FieldsFunc]: [quotes] is the captured
    variable; a quote flips it before the comma test is made. *)
Definition quoteSplit (quotes : bool) (r : ascii) : bool * bool :=
  let quotes :=
    if Ascii.eqb r quoteChar && negb quotes then true
    else if Ascii.eqb r quoteChar && quotes then false
    else quotes in
  (quotes, Ascii.eqb r commaChar && negb quotes).

Definition sections (s : string) : list string :=
  strings.FieldsFunc s quoteSplit false.

Definition hiddenWrapMessage : string := "failed to parse 'hidden' as a bool".

(** One turn of the loop over the sections: the metadata after the
    section and the error it raised, if any. *)
Definition parseSection (cmdmeta : commandMetadata) (section : string)
  : commandMetadata * option error :=
  match strings.SplitN section colonChar 2 with
  | [key; val] =>
      if String.eqb key "name" then
        (mkMeta val (meta_Usage cmdmeta) (meta_Hidden cmdmeta) (meta_Default cmdmeta), None)
      else if String.eqb key "usage" then
        (mkMeta (meta_Name cmdmeta) (strings.Trim val "'") (meta_Hidden cmdmeta)
                (meta_Default cmdmeta), None)
      else if String.eqb key "hidden" then
        let '(b, err) := strconv.ParseBool val in
        (mkMeta (meta_Name cmdmeta) (meta_Usage cmdmeta) b (meta_Default cmdmeta),
         option_map (fun e => ErrWrap e hiddenWrapMessage) err)
      else if String.eqb key "default" then
        (mkMeta (meta_Name cmdmeta) (meta_Usage cmdmeta) (meta_Hidden cmdmeta) val, None)
      else
        (cmdmeta, Some (ErrNew ("unknown command tag: '" ++ key ++ ":" ++ val ++ "'")))
  | _ => (cmdmeta, Some (ErrNew ("malformed tag: '" ++ section ++ "'")))
  end.

Fixpoint parseMeta_loop (cmdmeta : commandMetadata) (secs : list string)
  : commandMetadata * option error :=
  match secs with
  | [] => (cmdmeta, None)
  | section :: rest =>
      let '(cmdmeta', err) := parseSection cmdmeta section in
      match err with
      | Some e => (cmdmeta', Some e)
      | None => parseMeta_loop cmdmeta' rest
      end
  end.

Definition parseMeta (s : string) : commandMetadata * option error :=
  parseMeta_loop zeroMeta (sections s).

(** ** Integer conversions *)

Module conv.

Definition wrapSigned (bits : Z) (z : Z) : Z :=
  ((z + 2 ^ (bits - 1)) mod 2 ^ bits - 2 ^ (bits - 1))%Z.

Definition wrapUnsigned (bits : Z) (z : Z) : Z := (z mod 2 ^ bits)%Z.

(** [int64(x)], [int(x)], [uint64(x)] and [uint(x)]. *)
Definition int64 : Z -> Z := wrapSigned 64.
Definition int : Z -> Z := wrapSigned strconv.intSize.
Definition uint64 : Z -> Z := wrapUnsigned 64.
Definition uint : Z -> Z := wrapUnsigned strconv.intSize.

Definition inInt64 (z : Z) : Prop := (- 2 ^ 63 <= z < 2 ^ 63)%Z.
Definition inUint64 (z : Z) : Prop := (0 <= z < 2 ^ 64)%Z.

End conv.

(** ** The libraries the package is written against

    What [clive.go] imports and this development does not define:
    [strconv.ParseFloat] and the [float64] it returns, [time.ParseDuration]
    (a [time.Duration] is an [int64] count of nanoseconds) and the two case
    converters of [github.com/iancoleman/strcase]. *)
Class Libraries : Type := {
  float64 : Type;
  float64_zero : float64;
  (** [float64(float32(x))]: what a [float32] field holds after
      [reflect.Value.SetFloat x]. *)
  float32 : float64 -> float64;
  ParseFloat : string -> Z -> float64 * option error;
  ParseDuration : string -> Z * option error;
  ToKebab : string -> string;
  ToScreamingSnake : string -> string
}.

Section Clive.

Context {L : Libraries}.

(** ** Flags of [urfave/cli] *)

(** The fields every flag type of [cli] has. *)
Record flagFields : Type := mkFlag {
  flag_Name : string;
  flag_EnvVar : string;
  flag_Hidden : bool;
  flag_Usage : string
}.

(** [cli.Flag]: the flag types the package builds, each with its [Value]
    (the default).  The two boolean flags have none; the slice flags hold
    a pointer, [None] when nil. *)
Inductive Flag : Type :=
| IntFlag (f : flagFields) (Value : Z)
| Int64Flag (f : flagFields) (Value : Z)
| UintFlag (f : flagFields) (Value : Z)
| Uint64Flag (f : flagFields) (Value : Z)
| Float64Flag (f : flagFields) (Value : float64)
| BoolFlag (f : flagFields)
| BoolTFlag (f : flagFields)
| StringFlag (f : flagFields) (Value : string)
| DurationFlag (f : flagFields) (Value : Z)
| IntSliceFlag (f : flagFields) (Value : option (list Z))
| Int64SliceFlag (f : flagFields) (Value : option (list Z))
| StringSliceFlag (f : flagFields) (Value : option (list string)).

Definition fieldsOf (fl : Flag) : flagFields :=
  match fl with
  | IntFlag f _ | Int64Flag f _ | UintFlag f _ | Uint64Flag f _
  | Float64Flag f _ | BoolFlag f | BoolTFlag f | StringFlag f _
  | DurationFlag f _ | IntSliceFlag f _ | Int64SliceFlag f _
  | StringSliceFlag f _ => f
  end.

Definition GetName (fl : Flag) : string := flag_Name (fieldsOf fl).

(** ** Struct types seen through [reflect] *)

(** A [reflect.Type] as far as the package looks at it: its [String()] and
    whether its kind is [reflect.Struct]. *)
Record rtype : Type := mkType {
  type_String : string;
  type_isStruct : bool
}.

(** A [reflect.StructField]; [field_Tag] is [Tag.Get("cli")]. *)
Record StructField : Type := mkField {
  field_Name : string;
  field_Type : rtype;
  field_Tag : string
}.

(** ** [flagFromType] *)

(** The name of the flag and of its environment variable, as the head of
    [flagFromType] computes them. *)
Definition flagName (fieldName override : string) : string :=
  if negb (String.eqb override "") then ToKebab override
  else ToKebab (strings.TrimPrefix fieldName "Flag").

Definition envName (name : string) : string := ToScreamingSnake name.

Definition unsupportedFlagType (ty : string) : error :=
  ErrNew ("unsupported flag generator type: " ++ ty).

Definition flagFromType (fieldType : StructField) (cmdmeta : commandMetadata)
  : result Flag :=
  let name := flagName (field_Name fieldType) (meta_Name cmdmeta) in
  let env := envName name in
  let Default := strings.Trim (meta_Default cmdmeta) "'" in
  let f := mkFlag name env (meta_Hidden cmdmeta) (meta_Usage cmdmeta) in
  let ty := type_String (field_Type fieldType) in
  if String.eqb ty "int" then
    let def := fst (strconv.ParseInt Default 64) in
    Ok (IntFlag f (conv.int def))
  else if String.eqb ty "int64" then
    let def := fst (strconv.ParseInt Default 64) in
    Ok (Int64Flag f def)
  else if String.eqb ty "uint" then
    let def := fst (strconv.ParseUint Default 64) in
    Ok (UintFlag f (conv.uint def))
  else if String.eqb ty "uint64" then
    let def := fst (strconv.ParseUint Default 64) in
    Ok (Uint64Flag f def)
  else if String.eqb ty "float32" then
    let def := fst (ParseFloat Default 32) in
    Ok (Float64Flag f def)
  else if String.eqb ty "float64" then
    let def := fst (ParseFloat Default 64) in
    Ok (Float64Flag f def)
  else if String.eqb ty "bool" then
    let def := fst (strconv.ParseBool Default) in
    if negb def then Ok (BoolFlag f) else Ok (BoolTFlag f)
  else if String.eqb ty "string" then
    Ok (StringFlag f Default)
  else if String.eqb ty "time.Duration" then
    let def := fst (ParseDuration Default) in
    Ok (DurationFlag f def)
  else if String.eqb ty "[]int" then
    let def :=
      if negb (String.eqb Default "") then
        Some (map (fun s => fst (strconv.Atoi s)) (strings.Split Default commaChar))
      else None in
    Ok (IntSliceFlag f def)
  else if String.eqb ty "[]int64" then
    let def :=
      if negb (String.eqb Default "") then
        Some (map (fun s => conv.int64 (fst (strconv.Atoi s)))
                  (strings.Split Default commaChar))
      else None in
    Ok (Int64SliceFlag f def)
  else if String.eqb ty "[]string" then
    let def :=
      if negb (String.eqb Default "") then Some (strings.Split Default commaChar)
      else None in
    Ok (StringSliceFlag f def)
  else Err (unsupportedFlagType ty).

(** The type names [flagFromType] and [Flags] have a case for. *)
Definition supportedTypes : list string :=
  ["int"; "int64"; "uint"; "uint64"; "float32"; "float64"; "bool"; "string";
   "time.Duration"; "[]int"; "[]int64"; "[]string"].

Definition supported (t : rtype) : bool :=
  existsb (String.eqb (type_String t)) supportedTypes.

Definition eligible (f : StructField) : bool :=
  strings.HasPrefix (field_Name f) "Flag".

(** ** Commands, applications and the parse context of [urfave/cli] *)

(** An action bound to a command or application ([interface{}] in [cli]):
    nil, or a function known by an identifier. *)
Definition Action : Type := option string.

(** [cli.Command]: the fields the package writes ([Name], [Usage],
    [Flags]), the action, and [Description] for the fields it carries over
    from the embedded value untouched.  A nil slice and an empty one are
    both [[]]. *)
Record Command : Type := mkCommand {
  cmd_Name : string;
  cmd_Usage : string;
  cmd_Description : string;
  cmd_Action : Action;
  cmd_Flags : list Flag
}.

Definition zeroCommand : Command := mkCommand "" "" "" None [].

(** [cli.App] *)
Record App : Type := mkApp {
  app_Usage : string;
  app_Action : Action;
  app_Flags : list Flag;
  app_Commands : list Command
}.

(** [cli.NewApp()]: no flags, no commands, the default usage line and the
    help action. *)
Definition NewApp : App :=
  mkApp "A new cli application" (Some "helpCommand.Action") [] [].

(** [*cli.Context], as the answers of its typed lookups by flag name. *)
Record Context : Type := mkContext {
  ctx_Int : string -> Z;
  ctx_Int64 : string -> Z;
  ctx_Uint : string -> Z;
  ctx_Uint64 : string -> Z;
  ctx_Float64 : string -> float64;
  ctx_Bool : string -> bool;
  ctx_String : string -> string;
  ctx_Duration : string -> Z;
  ctx_IntSlice : string -> list Z;
  ctx_Int64Slice : string -> list Z;
  ctx_StringSlice : string -> list string
}.

(** ** Values of struct fields *)

(** What a field of a decorated struct holds.  Signed integers of every
    width (and [time.Duration]) are [VInt], unsigned ones [VUint], both
    float widths [VFloat]; [VOther] is a value of any other type, of struct
    kind or not, with an opaque content that is empty for the zero value. *)
Inductive value : Type :=
| VInt (z : Z)
| VUint (z : Z)
| VFloat (x : float64)
| VBool (b : bool)
| VString (s : string)
| VIntSlice (l : list Z)
| VInt64Slice (l : list Z)
| VStringSlice (l : list string)
| VCommand (c : Command)
| VOther (isStruct : bool) (content : string).

(** The zero value of a type, as [reflect.New(t).Elem()] makes it. *)
Definition zeroValue (t : rtype) : value :=
  let ty := type_String t in
  if existsb (String.eqb ty) ["int"; "int64"; "time.Duration"] then VInt 0
  else if existsb (String.eqb ty) ["uint"; "uint64"] then VUint 0
  else if existsb (String.eqb ty) ["float32"; "float64"] then VFloat float64_zero
  else if String.eqb ty "bool" then VBool false
  else if String.eqb ty "string" then VString ""
  else if String.eqb ty "[]int" then VIntSlice []
  else if String.eqb ty "[]int64" then VInt64Slice []
  else if String.eqb ty "[]string" then VStringSlice []
  else if String.eqb ty "cli.Command" then VCommand zeroCommand
  else VOther (type_isStruct t) "".

Definition kindIsStruct (v : value) : bool :=
  match v with
  | VCommand _ => true
  | VOther isStruct _ => isStruct
  | _ => false
  end.

(** A struct value: the name of its type ([""] for an anonymous struct)
    and its fields in declaration order, each with the value it holds. *)
Record Object : Type := mkObject {
  obj_TypeName : string;
  obj_Fields : list (StructField * value)
}.

(** What the [interface{}] arguments hold: a struct, a nil pointer, or a
    pointer to another such value.  [None] at type [option GoValue] is the
    nil interface.  Values of any other kind are left out: on them
    [reflect]'s [NumField] and [Field] panic. *)
Inductive GoValue : Type :=
| GStruct (o : Object)
| GNilPtr
| GPtr (target : GoValue).

(** [for objValue.Kind() == reflect.Ptr { objValue = objValue.Elem() }]:
    the struct behind the pointers, [None] when a nil pointer ends the
    chain (the zero [reflect.Value]). *)
Fixpoint deref (v : GoValue) : option Object :=
  match v with
  | GStruct o => Some o
  | GNilPtr => None
  | GPtr v' => deref v'
  end.

Definition zeroValuePanic : panicValue :=
  PanicReflect "reflect: call of reflect.Value.Type on zero Value".
Definition fieldIndexPanic : panicValue :=
  PanicReflect "reflect: Field index out of bounds".

(** ** [getCommand] and [commandFromObject] *)

Definition getCommand (fieldType : StructField) (fieldValue : value)
  : result Command :=
  if negb (String.eqb (field_Name fieldType) "Command") then
    Err (ErrNew "first field must be an embedded cli.Command")
  else if negb (kindIsStruct fieldValue) then
    Err (ErrNew "expected Command field to be a struct (specifically, an embedded cli.Command struct)")
  else
    match fieldValue with
    | VCommand cmd =>
        let '(cmdmeta, err) := parseMeta (field_Tag fieldType) in
        match err with
        | Some e =>
            Err (ErrWrap e "failed to read cmdmeta tag on the embedded cli.Command struct")
        | None =>
            Ok (mkCommand (cmd_Name cmd) (meta_Usage cmdmeta) (cmd_Description cmd)
                          (cmd_Action cmd) [])
        end
    | _ => Err (ErrNew "failed to cast Command field to a cli.Command object")
    end.

Definition flagWrapMessage : string := "failed to generate flag from struct field".

(** The loop of [commandFromObject] over the fields after the first;
    [flags] is [command.Flags] so far. *)
Fixpoint commandFlags (fields : list (StructField * value)) (flags : list Flag)
  : result (list Flag) :=
  match fields with
  | [] => Ok flags
  | (fieldType, _) :: rest =>
      let '(cmdmeta, err) := parseMeta (field_Tag fieldType) in
      match err with
      | Some e => Err e
      | None =>
          if eligible fieldType then
            match flagFromType fieldType cmdmeta with
            | Ok flag => commandFlags rest (flags ++ [flag])
            | Err e => Err (ErrWrap e flagWrapMessage)
            | Panic p => Panic p
            end
          else commandFlags rest flags
      end
  end.

Definition commandFromObject (obj : option GoValue) : result Command :=
  match obj with
  | None => Err (ErrNew "obj is null")
  | Some v =>
      match deref v with
      | None => Panic zeroValuePanic
      | Some o =>
          if String.eqb (obj_TypeName o) "" then
            Err (ErrNew "need a named struct type to determine command name")
          else
            match obj_Fields o with
            | [] => Panic fieldIndexPanic
            | (f0, v0) :: rest =>
                match getCommand f0 v0 with
                | Ok command =>
                    let name := strings.ToLower (obj_TypeName o) in
                    match commandFlags rest (cmd_Flags command) with
                    | Ok flags =>
                        Ok (mkCommand name (cmd_Usage command) (cmd_Description command)
                                      (cmd_Action command) flags)
                    | Err e => Err e
                    | Panic p => Panic p
                    end
                | Err e => Err e
                | Panic p => Panic p
                end
            end
      end
  end.

(** ** [build] and [Build] *)

(** The first loop of [build]: one command per object, stopping at the
    first error. *)
Fixpoint buildCommands (objs : list (option GoValue)) (commands : list Command)
  : result (list Command) :=
  match objs with
  | [] => Ok commands
  | obj :: rest =>
      match commandFromObject obj with
      | Ok command => buildCommands rest (commands ++ [command])
      | Err e => Err e
      | Panic p => Panic p
      end
  end.

(** [build]: [Err] stands for the pair of the untouched new application
    and the error, of which [Build] only reads the error. *)
Definition build (objs : list (option GoValue)) : result App :=
  let c := NewApp in
  match buildCommands objs [] with
  | Ok commands =>
      match commands with
      | [command] =>
          Ok (mkApp (cmd_Usage command) (cmd_Action command) (cmd_Flags command)
                    (app_Commands c))
      | _ => Ok (mkApp (app_Usage c) (app_Action c) [] commands)
      end
  | Err e => Err e
  | Panic p => Panic p
  end.

Definition Build (objs : list (option GoValue)) : result App :=
  match build objs with
  | Err e => Panic (PanicErr e)
  | r => r
  end.

(** ** [genericSliceOf] and [Flags] *)

(** A fresh slice of the same type, filled by appending the elements of
    [slice] one by one. *)
Definition genericSliceOf {A : Type} (slice : list A) : list A :=
  fold_left (fun sliceAddr v => sliceAddr ++ [v]) slice [].

(** [resultValue.FieldByName(name).Set...(v)]: the first field of that
    name takes [v].  The name is always that of a field of the struct. *)
Fixpoint setFieldByName (name : string) (v : value)
         (fields : list (StructField * value)) : list (StructField * value) :=
  match fields with
  | [] => []
  | (f, old) :: rest =>
      if String.eqb (field_Name f) name then (f, v) :: rest
      else (f, old) :: setFieldByName name v rest
  end.

(** [time.Duration.Nanoseconds]: the duration as an [int64]; a
    [time.Duration] is an [int64] already. *)
Definition Nanoseconds (d : Z) : Z := d.

(** The switch of [Flags]: the value read from the context for a field of
    type [ty], [None] in the default case. *)
Definition readFlag (ty : string) (c : Context) (name : string) : option value :=
  if String.eqb ty "int" then Some (VInt (conv.int64 (ctx_Int c name)))
  else if String.eqb ty "int64" then Some (VInt (ctx_Int64 c name))
  else if String.eqb ty "uint" then Some (VUint (conv.uint64 (ctx_Uint c name)))
  else if String.eqb ty "uint64" then Some (VUint (ctx_Uint64 c name))
  else if String.eqb ty "float32" then Some (VFloat (float32 (ctx_Float64 c name)))
  else if String.eqb ty "float64" then Some (VFloat (ctx_Float64 c name))
  else if String.eqb ty "bool" then Some (VBool (ctx_Bool c name))
  else if String.eqb ty "string" then Some (VString (ctx_String c name))
  else if String.eqb ty "time.Duration" then
    Some (VInt (Nanoseconds (ctx_Duration c name)))
  else if String.eqb ty "[]int" then
    Some (VIntSlice (genericSliceOf (ctx_IntSlice c name)))
  else if String.eqb ty "[]int64" then
    Some (VInt64Slice (genericSliceOf (ctx_Int64Slice c name)))
  else if String.eqb ty "[]string" then
    Some (VStringSlice (genericSliceOf (ctx_StringSlice c name)))
  else None.

(** The loop of [Flags] over all the fields of the type; [resultValue] is
    the new struct so far. *)
Fixpoint flagsLoop (c : Context) (fields : list StructField)
         (resultValue : list (StructField * value))
  : result (list (StructField * value)) :=
  match fields with
  | [] => Ok resultValue
  | fieldType :: rest =>
      let '(cmdmeta, err) := parseMeta (field_Tag fieldType) in
      match err with
      | Some e => Panic (PanicErr e)
      | None =>
          if eligible fieldType then
            match flagFromType fieldType cmdmeta with
            | Ok flag =>
                match readFlag (type_String (field_Type fieldType)) c (GetName flag) with
                | Some v =>
                    flagsLoop c rest (setFieldByName (field_Name fieldType) v resultValue)
                | None => Panic (PanicStr "unsupported type")
                end
            | Err e => Panic (PanicErr (ErrWrap e flagWrapMessage))
            | Panic p => Panic p
            end
          else flagsLoop c rest resultValue
      end
  end.

(** [reflect.New(objType).Elem()]: every field at the zero value of its
    type. *)
Definition newStruct (fields : list (StructField * value))
  : list (StructField * value) :=
  map (fun fv => (fst fv, zeroValue (field_Type (fst fv)))) fields.

Definition Flags (obj : option GoValue) (c : Context) : result Object :=
  match obj with
  | None => Panic (PanicStr "obj is null")
  | Some v =>
      match deref v with
      | None => Panic zeroValuePanic
      | Some o =>
          match flagsLoop c (map fst (obj_Fields o)) (newStruct (obj_Fields o)) with
          | Ok resultValue => Ok (mkObject (obj_TypeName o) resultValue)
          | Err e => Err e
          | Panic p => Panic p
          end
      end
  end.

(** ** Vocabulary of the properties *)

(** The default a flag carries, seen as the value of the field it was made
    for.  [cli] documents [BoolFlag] as false and [BoolTFlag] as true when
    the flag is not given; a nil slice pointer is the empty slice. *)
Definition flagValue (fl : Flag) : value :=
  match fl with
  | IntFlag _ v | Int64Flag _ v | DurationFlag _ v => VInt v
  | UintFlag _ v | Uint64Flag _ v => VUint v
  | Float64Flag _ x => VFloat x
  | BoolFlag _ => VBool false
  | BoolTFlag _ => VBool true
  | StringFlag _ s => VString s
  | IntSliceFlag _ v => VIntSlice (match v with Some l => l | None => [] end)
  | Int64SliceFlag _ v => VInt64Slice (match v with Some l => l | None => [] end)
  | StringSliceFlag _ v => VStringSlice (match v with Some l => l | None => [] end)
  end.

(** The context answers the lookup of the flag's name, at the flag's kind,
    with the flag's default: the state of a context after parsing a command
    line (and an environment) that does not mention the flag. *)
Definition preloaded (c : Context) (fl : Flag) : Prop :=
  let name := GetName fl in
  match fl with
  | IntFlag _ v => ctx_Int c name = v
  | Int64Flag _ v => ctx_Int64 c name = v
  | UintFlag _ v => ctx_Uint c name = v
  | Uint64Flag _ v => ctx_Uint64 c name = v
  | Float64Flag _ x => ctx_Float64 c name = x
  | BoolFlag _ => ctx_Bool c name = false
  | BoolTFlag _ => ctx_Bool c name = true
  | StringFlag _ s => ctx_String c name = s
  | DurationFlag _ v => ctx_Duration c name = v
  | IntSliceFlag _ v => ctx_IntSlice c name = match v with Some l => l | None => [] end
  | Int64SliceFlag _ v => ctx_Int64Slice c name = match v with Some l => l | None => [] end
  | StringSliceFlag _ v => ctx_StringSlice c name = match v with Some l => l | None => [] end
  end.

(** The default literal of a tag coerced to the type of the field, in the
    words of the specification: quotes trimmed, then parsed as the type;
    a list literal is split at its commas and each piece parsed, the empty
    literal being the empty list. *)
Definition coercedDefault (t : rtype) (literal : string) : value :=
  let ty := type_String t in
  let d := strings.Trim literal "'" in
  let pieces := if String.eqb d "" then [] else strings.Split d commaChar in
  if existsb (String.eqb ty) ["int"; "int64"] then VInt (fst (strconv.ParseInt d 64))
  else if existsb (String.eqb ty) ["uint"; "uint64"] then VUint (fst (strconv.ParseUint d 64))
  else if String.eqb ty "float32" then VFloat (fst (ParseFloat d 32))
  else if String.eqb ty "float64" then VFloat (fst (ParseFloat d 64))
  else if String.eqb ty "bool" then VBool (fst (strconv.ParseBool d))
  else if String.eqb ty "string" then VString d
  else if String.eqb ty "time.Duration" then VInt (fst (ParseDuration d))
  else if String.eqb ty "[]int" then
    VIntSlice (map (fun s => fst (strconv.Atoi s)) pieces)
  else if String.eqb ty "[]int64" then
    VInt64Slice (map (fun s => fst (strconv.Atoi s)) pieces)
  else if String.eqb ty "[]string" then VStringSlice pieces
  else zeroValue t.

(** The fields common to every flag made for [fieldType] under [cmdmeta],
    and the default literal once its quotes are trimmed. *)
Definition flagBase (fieldType : StructField) (cmdmeta : commandMetadata) : flagFields :=
  let name := flagName (field_Name fieldType) (meta_Name cmdmeta) in
  mkFlag name (envName name) (meta_Hidden cmdmeta) (meta_Usage cmdmeta).

Definition trimmedDefault (cmdmeta : commandMetadata) : string :=
  strings.Trim (meta_Default cmdmeta) "'".

(** The flag name of a field, from its name and the [name:] of its tag. *)
Definition fieldFlagName (f : StructField) : string :=
  flagName (field_Name f) (meta_Name (fst (parseMeta (field_Tag f)))).

(** The value of the first field called [name]. *)
Fixpoint lookupField (name : string) (fields : list (StructField * value))
  : option value :=
  match fields with
  | [] => None
  | (f, v) :: rest =>
      if String.eqb (field_Name f) name then Some v else lookupField name rest
  end.

Definition FieldByName (o : Object) (name : string) : option value :=
  lookupField name (obj_Fields o).

(** The error [flagFromType] drops when it coerces the default literal of
    a scalar field ([def, _ := ...]); [None] for strings and lists, whose
    literal is not parsed as a whole. *)
Definition literalError (t : rtype) (literal : string) : option error :=
  let ty := type_String t in
  let d := strings.Trim literal "'" in
  if existsb (String.eqb ty) ["int"; "int64"] then snd (strconv.ParseInt d 64)
  else if existsb (String.eqb ty) ["uint"; "uint64"] then snd (strconv.ParseUint d 64)
  else if String.eqb ty "float32" then snd (ParseFloat d 32)
  else if String.eqb ty "float64" then snd (ParseFloat d 64)
  else if String.eqb ty "bool" then snd (strconv.ParseBool d)
  else if String.eqb ty "time.Duration" then snd (ParseDuration d)
  else None.

(** Two contexts answer every lookup of [name] alike. *)
Definition ctxAgree (c1 c2 : Context) (name : string) : Prop :=
  ctx_Int c1 name = ctx_Int c2 name /\
  ctx_Int64 c1 name = ctx_Int64 c2 name /\
  ctx_Uint c1 name = ctx_Uint c2 name /\
  ctx_Uint64 c1 name = ctx_Uint64 c2 name /\
  ctx_Float64 c1 name = ctx_Float64 c2 name /\
  ctx_Bool c1 name = ctx_Bool c2 name /\
  ctx_String c1 name = ctx_String c2 name /\
  ctx_Duration c1 name = ctx_Duration c2 name /\
  ctx_IntSlice c1 name = ctx_IntSlice c2 name /\
  ctx_Int64Slice c1 name = ctx_Int64Slice c2 name /\
  ctx_StringSlice c1 name = ctx_StringSlice c2 name.

(** Every tag of the fields parses, and every field named [Flag...] has a
    supported type. *)
Definition wellTagged (f : StructField) : Prop :=
  snd (parseMeta (field_Tag f)) = None /\
  (eligible f = true -> supported (field_Type f) = true).

End Clive.

(** The quoting state after reading [s] from state [q]: a quote flips it. *)
Fixpoint quotesOpen (q : bool) (s : string) : bool :=
  match s with
  | EmptyString => q
  | String c r => quotesOpen (if Ascii.eqb c quoteChar then negb q else q) r
  end.

(** Whether [s], read from quoting state [q], has a comma outside quotes. *)
Fixpoint commaOutside (q : bool) (s : string) : bool :=
  match s with
  | EmptyString => false
  | String c r =>
      if Ascii.eqb c quoteChar then commaOutside (negb q) r
      else (Ascii.eqb c commaChar && negb q) || commaOutside q r
  end.

Fixpoint countChar (c : ascii) (s : string) : nat :=
  match s with
  | EmptyString => O
  | String d r => (if Ascii.eqb d c then 1 else 0) + countChar c r
  end.

Definition isSyntaxError (e : option error) : bool :=
  match e with Some (ErrNum _ _ ErrSyntax) => true | _ => false end.

Definition isRangeError (e : option error) : bool :=
  match e with Some (ErrNum _ _ ErrRange) => true | _ => false end.

(** The spellings [strconv.ParseBool] accepts. *)
Definition boolSpellings : list string :=
  ["1"; "t"; "T"; "TRUE"; "true"; "True"; "0"; "f"; "F"; "FALSE"; "false"; "False"].

(** Whether [needle] occurs in [s]. *)
Fixpoint contains (s needle : string) : bool :=
  String.prefix needle s ||
  match s with
  | EmptyString => false
  | String _ r => contains r needle
  end.

(** ** An instance of the libraries for running examples

    Integers stand for the floats, [ParseFloat] and [ParseDuration] read
    decimal integer literals (of nanoseconds), [ToKebab] lowers ASCII
    letters and [ToScreamingSnake] raises them, turning [-] into [_]:
    what the real functions do on the one-word names used below. *)
Definition upperByte (c : ascii) : ascii :=
  if (97 <=? nat_of_ascii c)%nat && (nat_of_ascii c <=? 122)%nat
  then ascii_of_nat (nat_of_ascii c - 32)
  else if Ascii.eqb c "-" then "_"%char else c.

Fixpoint screaming (s : string) : string :=
  match s with
  | EmptyString => EmptyString
  | String c r => String (upperByte c) (screaming r)
  end.

Definition exampleLibraries : Libraries := {|
  float64 := Z;
  float64_zero := 0%Z;
  float32 := fun x => x;
  ParseFloat := fun s _ => strconv.withFunc "ParseFloat" s (strconv.ParseInt_kind s 64);
  ParseDuration := fun s =>
    match snd (strconv.ParseInt_kind s 64) with
    | None => (fst (strconv.ParseInt_kind s 64), None)
    | Some _ => (0%Z, Some (ErrNew ("time: invalid duration " ++ s)))
    end;
  ToKebab := strings.ToLower;
  ToScreamingSnake := screaming
|}.

(** A context that answers every lookup with a fixed value per kind. *)
Definition constContext (z : Z) (b : bool) (s : string) : @Context exampleLibraries :=
  @mkContext exampleLibraries
    (fun _ => z) (fun _ => z) (fun _ => z) (fun _ => z) (fun _ => z)
    (fun _ => b) (fun _ => s) (fun _ => z)
    (fun _ => [z]) (fun _ => [z]) (fun _ => [s]).

Definition commandField (tag : string) : StructField :=
  mkField "Command" (mkType "cli.Command" true) tag.

Definition plainField (name ty tag : string) : StructField :=
  mkField name (mkType ty false) tag.

(** Two decorated structs, as a program would declare them:
    [type Serve struct { cli.Command `cli:"usage:'serve files'"`;
    FlagPort int `cli:"default:8080"`; FlagHosts []string
    `cli:"default:'a,b'"`; Note string }] and
    [type Fetch struct { cli.Command; FlagVerbose bool `cli:"default:true"` }],
    with the values a caller left in them. *)
Definition serveObject : @Object exampleLibraries :=
  mkObject "Serve"
    [ (commandField "usage:'serve files'",
       VCommand (mkCommand "" "" "static file server" (Some "serve") []));
      (plainField "FlagPort" "int" "default:8080", VInt 1);
      (plainField "FlagHosts" "[]string" "default:'a,b'", VStringSlice ["x"]);
      (plainField "Note" "string" "", VString "draft") ].

Definition fetchObject : @Object exampleLibraries :=
  mkObject "Fetch"
    [ (commandField "", VCommand (mkCommand "" "" "" (Some "fetch") []));
      (plainField "FlagVerbose" "bool" "default:true", VBool false) ].

(** The commands [commandFromObject] makes of them. *)
Definition serveCommand : @Command exampleLibraries :=
  mkCommand "serve" "serve files" "static file server" (Some "serve")
    [ IntFlag (mkFlag "port" "PORT" false "") 8080;
      StringSliceFlag (mkFlag "hosts" "HOSTS" false "") (Some ["a"; "b"]) ].

Definition fetchCommand : @Command exampleLibraries :=
  mkCommand "fetch" "" "" (Some "fetch")
    [ BoolTFlag (mkFlag "verbose" "VERBOSE" false "") ].

(** A context holding the defaults of [serveCommand]'s flags. *)
Definition serveDefaults : @Context exampleLibraries :=
  @mkContext exampleLibraries
    (fun _ => 8080%Z) (fun _ => 0%Z) (fun _ => 0%Z) (fun _ => 0%Z) (fun _ => 0%Z)
    (fun _ => false) (fun _ => "") (fun _ => 0%Z)
    (fun _ => []) (fun _ => []) (fun _ => ["a"; "b"]).

(** A struct with a field of a type the package has no case for, under a
    field name of the caller's choice. *)
Definition brokenObject {L : Libraries} (fieldName : string) : Object :=
  mkObject "Broken"
    [ (commandField "", VCommand zeroCommand);
      (plainField fieldName "chan int" "", VOther false "") ].

Definition commandTagWrapMessage : string :=
  "failed to read cmdmeta tag on the embedded cli.Command struct".

(** A struct whose [Note] field, not a flag, carries a tag with an unknown
    key, after a well-formed flag. *)
Definition badTagObject : @Object exampleLibraries :=
  mkObject "Serve"
    [ (commandField "usage:'serve files'", VCommand zeroCommand);
      (plainField "FlagPort" "int" "default:8080", VInt 0);
      (plainField "Note" "string" "json:note", VString "");
      (plainField "FlagLast" "chan int" "", VOther false "") ].

(** A struct of the given name with two flag fields of the given names
    and types, both renamed to [override] by their tags. *)
Definition twinObject {L : Libraries} (typeName n1 n2 override : string)
           (t1 t2 : rtype) : Object :=
  mkObject typeName
    [ (commandField "", VCommand zeroCommand);
      (mkField n1 t1 ("name:" ++ override), zeroValue t1);
      (mkField n2 t2 ("name:" ++ override), zeroValue t2) ].

(** Decimal literals: whether every byte of [s] is a digit, and the
    number the digits of [s] write after the digits that made [n]. *)
Fixpoint allDigits (s : string) : bool :=
  match s with
  | EmptyString => true
  | String c r => strconv.isDigit c && allDigits r
  end.

Fixpoint decimalFrom (n : Z) (s : string) : Z :=
  match s with
  | EmptyString => n
  | String c r => decimalFrom (n * 10 + strconv.digitVal c) r
  end.

Definition decimalValue (s : string) : Z := decimalFrom 0 s.

(** The length of the list a slice flag has for default, if it has one. *)
Definition sliceDefaultLength {L : Libraries} (fl : Flag) : option nat :=
  match fl with
  | IntSliceFlag _ (Some l) | Int64SliceFlag _ (Some l) => Some (length l)
  | StringSliceFlag _ (Some l) => Some (length l)
  | _ => None
  end.

(** * Properties *)

Local Open Scope string_scope.

(** ** Strings *)

Lemma append_nil_r (s : string) : s ++ "" = s.
Proof. induction s as [|c s IH]; simpl; [reflexivity | now rewrite IH]. Qed.

Lemma append_assoc (a b c : string) : (a ++ b) ++ c = a ++ (b ++ c).
Proof. induction a as [|x a IH]; simpl; [reflexivity | now rewrite IH]. Qed.

Lemma append_snoc_cons (cur : string) (c : ascii) (s : string) :
  (cur ++ String c "") ++ s = cur ++ String c s.
Proof. now rewrite append_assoc. Qed.

(** ** The closure of [parseMeta] *)

Lemma quoteSplit_eq (q : bool) (c : ascii) :
  quoteSplit q c =
  (if Ascii.eqb c quoteChar then negb q else q,
   Ascii.eqb c commaChar && negb (if Ascii.eqb c quoteChar then negb q else q)).
Proof.
  unfold quoteSplit.
  destruct (Ascii.eqb c quoteChar), q; reflexivity.
Qed.

Lemma comma_not_quote (c : ascii) :
  Ascii.eqb c commaChar = true -> Ascii.eqb c quoteChar = false.
Proof.
  intros H. apply Ascii.eqb_eq in H. subst c. reflexivity.
Qed.

(** A comma met outside quotes ends the current section; what follows is
    split on its own, starting outside quotes. *)
Lemma sections_loop_comma (a : string) :
  forall (q : bool) (cur b : string),
    quotesOpen q a = false ->
    strings.FieldsFunc_loop quoteSplit q cur (a ++ String commaChar b) =
    (strings.FieldsFunc_loop quoteSplit q cur a
     ++ strings.FieldsFunc_loop quoteSplit false "" b)%list.
Proof.
  induction a as [|c a IH]; intros q cur b Hq.
  - simpl in Hq. subst q. simpl. destruct cur; reflexivity.
  - simpl in Hq. change (String c a ++ String commaChar b)
      with (String c (a ++ String commaChar b)).
    cbn [strings.FieldsFunc_loop]. rewrite quoteSplit_eq.
    destruct (Ascii.eqb c commaChar) eqn:Hc.
    + rewrite (comma_not_quote c Hc) in *. cbn [andb].
      destruct q; cbn [negb].
      * apply IH, Hq.
      * destruct cur; cbn [app]; rewrite IH by exact Hq; reflexivity.
    + cbn [andb]. apply IH, Hq.
Qed.

(** Without a comma outside quotes nothing is split. *)
Lemma sections_loop_whole (s : string) :
  forall (q : bool) (cur : string),
    commaOutside q s = false ->
    strings.FieldsFunc_loop quoteSplit q cur s =
    match cur ++ s with EmptyString => [] | t => [t] end.
Proof.
  induction s as [|c s IH]; intros q cur H.
  - simpl. rewrite append_nil_r. destruct cur; reflexivity.
  - cbn [strings.FieldsFunc_loop]. rewrite quoteSplit_eq.
    cbn [commaOutside] in H.
    destruct (Ascii.eqb c quoteChar) eqn:Hquote.
    + assert (Ascii.eqb c commaChar = false) as ->.
      { destruct (Ascii.eqb c commaChar) eqn:Hc; [|reflexivity].
        rewrite (comma_not_quote c Hc) in Hquote. discriminate. }
      cbn [andb]. rewrite IH by exact H. now rewrite append_snoc_cons.
    + apply orb_false_iff in H. destruct H as [H1 H2].
      rewrite H1. rewrite IH by exact H2. now rewrite append_snoc_cons.
Qed.

Lemma sections_whole (s : string) :
  s <> "" -> commaOutside false s = false -> sections s = [s].
Proof.
  intros Hne H. unfold sections, strings.FieldsFunc.
  rewrite sections_loop_whole by exact H. simpl.
  destruct s; [contradiction | reflexivity].
Qed.

Lemma sections_comma (a b : string) :
  quotesOpen false a = false ->
  sections (a ++ String commaChar b) = (sections a ++ sections b)%list.
Proof. intros H. apply sections_loop_comma, H. Qed.

(** C4.  [parseMeta] cuts its tag only at the commas that lie outside
    single quotes.  Let [a] and [b] be non-empty texts whose commas, if
    any, are all inside quotes, the quotes of [a] being closed: [a] alone
    is one section, commas included, and [a,b] is cut at the comma between
    them and nowhere else, so [parseMeta] reads the two sections [a] and
    [b].  On ["usage:'a,b,c',default:1"] the usage is [a,b,c], quotes
    stripped, and the default is [1]. *)
Theorem parseMeta_splits_outside_quotes (a b : string)
        (Ha : a <> "") (Hb : b <> "")
        (Hbalanced : quotesOpen false a = false)
        (Hina : commaOutside false a = false)
        (Hinb : commaOutside false b = false) :
  sections a = [a] /\
  sections (a ++ "," ++ b) = [a; b] /\
  parseMeta (a ++ "," ++ b) = parseMeta_loop zeroMeta [a; b] /\
  parseMeta "usage:'a,b,c',default:1" = (mkMeta "" "a,b,c" false "1", None).
Proof.
  assert (sections (a ++ "," ++ b) = [a; b]) as Hs.
  { change ("," ++ b) with (String commaChar b).
    rewrite sections_comma by exact Hbalanced.
    now rewrite !sections_whole. }
  repeat split.
  - now apply sections_whole.
  - exact Hs.
  - unfold parseMeta. now rewrite Hs.
Qed.

Lemma parseMeta_splits_outside_quotes_witness :
  sections "usage:'a,b,c',default:1" = ["usage:'a,b,c'"; "default:1"].
Proof.
  refine (proj1 (proj2 (parseMeta_splits_outside_quotes
                          "usage:'a,b,c'" "default:1" _ _ _ _ _)));
    first [ discriminate | reflexivity ].
Defined.

(** ** [strconv]: values that come with an error, and ranges *)

Lemma ParseUint_loop_spec (maxVal : Z) (s : string) :
  (0 <= maxVal < 2 ^ 64)%Z ->
  forall n : Z,
    (0 <= n <= maxVal)%Z ->
    let r := strconv.ParseUint_loop maxVal n s in
    (snd r = Some ErrSyntax -> fst r = 0%Z) /\
    (snd r = Some ErrRange -> fst r = maxVal) /\
    (0 <= fst r <= maxVal)%Z.
Proof.
  intros Hmax. induction s as [|c s IH]; intros n Hn; cbn zeta.
  - simpl. repeat split; try discriminate; lia.
  - cbn [strconv.ParseUint_loop].
    destruct (strconv.isDigit c).
    + cbn zeta. destruct (_ <=? n)%Z.
      * simpl. repeat split; try discriminate; lia.
      * destruct (_ || _) eqn:Hov.
        -- simpl. repeat split; try discriminate; lia.
        -- apply orb_false_iff in Hov. destruct Hov as [_ Hle].
           apply Z.ltb_ge in Hle. apply IH. split; [|exact Hle].
           apply Z.mod_pos_bound. lia.
    + simpl. repeat split; try discriminate; lia.
Qed.

Lemma ParseUint_kind_spec (s : string) :
  let r := strconv.ParseUint_kind s 64 in
  (snd r = Some ErrSyntax -> fst r = 0%Z) /\
  (snd r = Some ErrRange -> fst r = strconv.maxUint64) /\
  conv.inUint64 (fst r).
Proof.
  unfold strconv.ParseUint_kind, conv.inUint64.
  destruct s as [|c s].
  - simpl. repeat split; try discriminate; lia.
  - change (if (64 =? 0)%Z then strconv.intSize else 64%Z) with 64%Z.
    pose proof (ParseUint_loop_spec (2 ^ 64 - 1) (String c s)
                  ltac:(lia) 0%Z ltac:(lia)) as H.
    cbn zeta in H. destruct H as (H1 & H2 & H3).
    repeat split; try assumption; try lia.
Qed.

Lemma ParseInt_kind_spec (s : string) :
  let r := strconv.ParseInt_kind s 64 in
  (snd r = Some ErrSyntax -> fst r = 0%Z) /\
  (snd r = Some ErrRange -> fst r = (2 ^ 63 - 1)%Z \/ fst r = (- 2 ^ 63)%Z) /\
  conv.inInt64 (fst r).
Proof.
  unfold strconv.ParseInt_kind, conv.inInt64.
  destruct s as [|c s].
  - simpl. repeat split; try discriminate; lia.
  - cbn zeta.
    set (t := if (Ascii.eqb c "+" || Ascii.eqb c "-")%bool then s else String c s).
    pose proof (ParseUint_kind_spec t) as H. cbn zeta in H.
    destruct (strconv.ParseUint_kind t 64) as [un [[|]|]]; simpl in H;
      destruct H as (H1 & H2 & H3); unfold conv.inUint64 in H3.
    + simpl. repeat split; try discriminate; lia.
    + change (if (64 =? 0)%Z then strconv.intSize else 64%Z) with 64%Z.
      change (64 - 1)%Z with 63%Z.
      destruct (Ascii.eqb c "-"); cbn [negb andb];
        repeat match goal with
               | |- context [(?a <=? ?b)%Z] => destruct (Z.leb_spec a b)
               | |- context [(?a <? ?b)%Z] => destruct (Z.ltb_spec a b)
               end; simpl; repeat split; intros; try discriminate; try lia.
    + change (if (64 =? 0)%Z then strconv.intSize else 64%Z) with 64%Z.
      change (64 - 1)%Z with 63%Z.
      destruct (Ascii.eqb c "-"); cbn [negb andb];
        repeat match goal with
               | |- context [(?a <=? ?b)%Z] => destruct (Z.leb_spec a b)
               | |- context [(?a <? ?b)%Z] => destruct (Z.ltb_spec a b)
               end; simpl; repeat split; intros; try discriminate; try lia.
Qed.

Lemma ParseInt_kind_width (s : string) :
  strconv.ParseInt_kind s 0 = strconv.ParseInt_kind s 64.
Proof. reflexivity. Qed.

Lemma ParseInt_range (s : string) : conv.inInt64 (fst (strconv.ParseInt s 64)).
Proof. apply ParseInt_kind_spec. Qed.

Lemma ParseUint_range (s : string) : conv.inUint64 (fst (strconv.ParseUint s 64)).
Proof. apply ParseUint_kind_spec. Qed.

Lemma Atoi_range (s : string) : conv.inInt64 (fst (strconv.Atoi s)).
Proof. unfold strconv.Atoi. rewrite ParseInt_kind_width. apply ParseInt_kind_spec. Qed.

Lemma wrapSigned_id (z : Z) : conv.inInt64 z -> conv.wrapSigned 64 z = z.
Proof.
  unfold conv.inInt64, conv.wrapSigned. intros H.
  change (64 - 1)%Z with 63%Z.
  rewrite Z.mod_small; lia.
Qed.

Lemma wrapUnsigned_id (z : Z) : conv.inUint64 z -> conv.wrapUnsigned 64 z = z.
Proof.
  unfold conv.inUint64, conv.wrapUnsigned. intros H. apply Z.mod_small. lia.
Qed.

Lemma int_id (z : Z) : conv.inInt64 z -> conv.int z = z.
Proof. apply wrapSigned_id. Qed.

Lemma int64_id (z : Z) : conv.inInt64 z -> conv.int64 z = z.
Proof. apply wrapSigned_id. Qed.

Lemma uint_id (z : Z) : conv.inUint64 z -> conv.uint z = z.
Proof. apply wrapUnsigned_id. Qed.

Lemma uint64_id (z : Z) : conv.inUint64 z -> conv.uint64 z = z.
Proof. apply wrapUnsigned_id. Qed.

(** [ParseBool] succeeds on its twelve spellings and on nothing else. *)
Lemma ParseBool_ok_iff (v : string) :
  snd (strconv.ParseBool v) = None <-> In v boolSpellings.
Proof.
  unfold strconv.ParseBool, boolSpellings.
  split.
  - intros H.
    destruct (existsb (String.eqb v) ["1"; "t"; "T"; "TRUE"; "true"; "True"]) eqn:E1.
    + apply existsb_exists in E1. destruct E1 as (x & Hin & Hx).
      apply String.eqb_eq in Hx. subst x. simpl in Hin. simpl. tauto.
    + destruct (existsb (String.eqb v) ["0"; "f"; "F"; "FALSE"; "false"; "False"]) eqn:E2.
      * apply existsb_exists in E2. destruct E2 as (x & Hin & Hx).
        apply String.eqb_eq in Hx. subst x. simpl in Hin. simpl. tauto.
      * discriminate.
  - intros H. simpl in H.
    repeat (destruct H as [H|H]; [subst v; reflexivity|]). contradiction.
Qed.

Lemma ParseBool_error_false (v : string) :
  snd (strconv.ParseBool v) <> None -> fst (strconv.ParseBool v) = false.
Proof.
  unfold strconv.ParseBool.
  destruct (existsb _ _); [intros H; now elim H|].
  destruct (existsb _ _); reflexivity.
Qed.

(** ** [strings.Split] *)

Lemma Split_nonempty (s : string) (sep : ascii) : strings.Split s sep <> [].
Proof.
  destruct s as [|c s]; simpl; [discriminate|].
  destruct (Ascii.eqb c sep); [discriminate|].
  destruct (strings.Split s sep); discriminate.
Qed.

Lemma Split_length (s : string) (sep : ascii) :
  length (strings.Split s sep) = S (countChar sep s).
Proof.
  induction s as [|c s IH]; simpl; [reflexivity|].
  destruct (Ascii.eqb c sep); simpl.
  - now rewrite IH.
  - pose proof (Split_nonempty s sep) as Hne.
    destruct (strings.Split s sep); [contradiction|]. simpl in *. exact IH.
Qed.

Lemma Split_concat (s : string) (sep : ascii) :
  String.concat (String sep "") (strings.Split s sep) = s.
Proof.
  induction s as [|c s IH]; simpl; [reflexivity|].
  destruct (Ascii.eqb_spec c sep) as [->|Hne].
  - pose proof (Split_nonempty s sep) as Hn.
    destruct (strings.Split s sep) as [|h t] eqn:E; [contradiction|].
    cbn [String.concat]. simpl. f_equal. exact IH.
  - pose proof (Split_nonempty s sep) as Hn.
    destruct (strings.Split s sep) as [|h t] eqn:E; [contradiction|].
    destruct t as [|h' t]; simpl in *; now rewrite <- IH.
Qed.

Lemma Split_pieces (s : string) (sep : ascii) :
  Forall (fun piece => countChar sep piece = O) (strings.Split s sep).
Proof.
  induction s as [|c s IH]; simpl.
  - constructor; [reflexivity | constructor].
  - destruct (Ascii.eqb c sep) eqn:E.
    + constructor; [reflexivity | exact IH].
    + destruct (strings.Split s sep) as [|h t].
      * constructor; [simpl; now rewrite E | constructor].
      * inversion IH; subst. constructor; [simpl; rewrite E; assumption | assumption].
Qed.

(** ** The type switch *)

(** Decide the comparisons of string literals left in the goal after the
    type of a field has been fixed, and take the branch they select. *)
Ltac eval_eqb :=
  cbn [existsb];
  repeat match goal with
         | |- context [String.eqb ?a ?b] =>
             let r := eval vm_compute in (String.eqb a b) in
             match r with
             | true => change (String.eqb a b) with true
             | false => change (String.eqb a b) with false
             end
         end;
  cbn [orb]; cbv beta iota zeta.

Lemma supported_In (t : rtype) :
  supported t = true -> In (type_String t) supportedTypes.
Proof.
  unfold supported. intros H. apply existsb_exists in H.
  destruct H as (x & Hin & Hx). apply String.eqb_eq in Hx. now subst x.
Qed.

Lemma unsupported_not_In (t : rtype) :
  supported t = false -> ~ In (type_String t) supportedTypes.
Proof.
  unfold supported. intros H Hin.
  assert (existsb (String.eqb (type_String t)) supportedTypes = true) as E.
  { apply existsb_exists. exists (type_String t). split; [exact Hin|]. apply String.eqb_refl. }
  congruence.
Qed.

(** Split a goal about a supported type into its twelve cases. *)
Ltac by_supported H :=
  apply supported_In in H; simpl in H;
  repeat (destruct H as [H|H]); try contradiction.

Section FlagSynthesis.

Context {L : Libraries}.

Lemma flagFromType_unsupported (f : StructField) (meta : commandMetadata) :
  supported (field_Type f) = false ->
  flagFromType f meta = Err (unsupportedFlagType (type_String (field_Type f))).
Proof.
  intros H. unfold supported in H. simpl in H.
  repeat (apply orb_false_iff in H; destruct H as [? H]).
  unfold flagFromType.
  repeat match goal with E : String.eqb _ _ = false |- _ => rewrite E; clear E end.
  reflexivity.
Qed.

Lemma flagFromType_supported (f : StructField) (meta : commandMetadata) :
  supported (field_Type f) = true -> exists flag, flagFromType f meta = Ok flag.
Proof.
  intros H. by_supported H; unfold flagFromType; rewrite <- H; eval_eqb;
    try (eexists; reflexivity).
  destruct (negb _); eexists; reflexivity.
Qed.

Lemma flagFromType_ok_supported (f : StructField) (meta : commandMetadata) (flag : Flag) :
  flagFromType f meta = Ok flag -> supported (field_Type f) = true.
Proof.
  intros H. destruct (supported (field_Type f)) eqn:E; [reflexivity|].
  rewrite (flagFromType_unsupported f meta E) in H. discriminate.
Qed.

Lemma flagFromType_no_panic (f : StructField) (meta : commandMetadata) (p : panicValue) :
  flagFromType f meta <> Panic p.
Proof.
  destruct (supported (field_Type f)) eqn:E.
  - destruct (flagFromType_supported f meta E) as [flag ->]. discriminate.
  - rewrite (flagFromType_unsupported f meta E). discriminate.
Qed.

(** Every flag carries the common fields computed at the head of
    [flagFromType]. *)
Lemma flagFromType_fields (f : StructField) (meta : commandMetadata) (flag : Flag) :
  flagFromType f meta = Ok flag -> fieldsOf flag = flagBase f meta.
Proof.
  intros Hf. pose proof (flagFromType_ok_supported f meta flag Hf) as H.
  revert Hf. by_supported H; unfold flagFromType; rewrite <- H; eval_eqb;
    try (intros [= <-]; reflexivity).
  destruct (negb _); intros [= <-]; reflexivity.
Qed.

(** ** The loop of [commandFromObject] *)

Lemma commandFlags_app (pre rest : list (StructField * value)) :
  forall flags : list Flag,
    commandFlags (pre ++ rest)%list flags =
    match commandFlags pre flags with
    | Ok flags' => commandFlags rest flags'
    | other => other
    end.
Proof.
  induction pre as [|[f v] pre IH]; intros flags; simpl; [reflexivity|].
  destruct (parseMeta (field_Tag f)) as [meta [e|]]; [reflexivity|].
  destruct (eligible f); [|apply IH].
  destruct (flagFromType f meta); [apply IH | reflexivity | reflexivity].
Qed.

(** When the loop succeeds, every tag parsed, every [Flag...] field had a
    supported type, and the flags appended are those of the eligible
    fields, in order, under the names of [fieldFlagName]. *)
Lemma commandFlags_ok (fields : list (StructField * value)) :
  forall flags0 flags : list Flag,
    commandFlags fields flags0 = Ok flags ->
    Forall wellTagged (map fst fields) /\
    (map GetName flags =
     map GetName flags0 ++ map fieldFlagName (filter eligible (map fst fields)))%list /\
    (map (fun fl => flag_EnvVar (fieldsOf fl)) flags =
     map (fun fl => flag_EnvVar (fieldsOf fl)) flags0
     ++ map (fun f => envName (fieldFlagName f)) (filter eligible (map fst fields)))%list.
Proof.
  induction fields as [|[f v] fields IH]; intros flags0 flags H; simpl in H.
  - injection H as <-. simpl. rewrite !app_nil_r. repeat split. constructor.
  - destruct (parseMeta (field_Tag f)) as [meta [e|]] eqn:Hmeta; [discriminate|].
    destruct (eligible f) eqn:Hel.
    + destruct (flagFromType f meta) as [flag|e|p] eqn:Hflag; try discriminate.
      destruct (IH _ _ H) as (Hw & Hn & He).
      pose proof (flagFromType_fields f meta flag Hflag) as Hfields.
      assert (GetName flag = fieldFlagName f) as Hname.
      { unfold GetName, fieldFlagName. rewrite Hfields, Hmeta. reflexivity. }
      repeat split.
      * cbn [map fst]. constructor; [|exact Hw]. split.
        -- now rewrite Hmeta.
        -- intros _. eapply flagFromType_ok_supported; eassumption.
      * cbn [map fst filter]. rewrite Hel. cbn [map].
        rewrite Hn, map_app, <- app_assoc. cbn [map app]. now rewrite Hname.
      * cbn [map fst filter]. rewrite Hel. cbn [map].
        rewrite He, map_app, <- app_assoc. cbn [map app].
        rewrite Hfields. unfold flagBase, fieldFlagName. rewrite Hmeta. reflexivity.
    + destruct (IH _ _ H) as (Hw & Hn & He). repeat split.
      * cbn [map fst]. constructor; [|exact Hw]. split.
        -- now rewrite Hmeta.
        -- intros Habs. congruence.
      * cbn [map fst filter]. now rewrite Hel.
      * cbn [map fst filter]. now rewrite Hel.
Qed.

(** Conversely the loop succeeds on well-tagged fields. *)
Lemma commandFlags_total (fields : list (StructField * value)) :
  Forall wellTagged (map fst fields) ->
  forall flags0, exists flags, commandFlags fields flags0 = Ok flags.
Proof.
  induction fields as [|[f v] fields IH]; intros Hw flags0; simpl.
  - now exists flags0.
  - cbn [map fst] in Hw. inversion Hw as [|? ? [Htag Hsup] Hrest]; subst.
    destruct (parseMeta (field_Tag f)) as [meta [e|]]; [discriminate|].
    destruct (eligible f).
    + destruct (flagFromType_supported f meta (Hsup eq_refl)) as [flag ->].
      apply IH, Hrest.
    + apply IH, Hrest.
Qed.

(** The flags the loop appends are, field by field, those [flagFromType]
    makes of the eligible fields and their parsed tags. *)
Lemma commandFlags_Forall2 (fields : list (StructField * value)) :
  forall flags0 flags : list Flag,
    commandFlags fields flags0 = Ok flags ->
    exists new,
      flags = (flags0 ++ new)%list /\
      Forall2 (fun f flag => flagFromType f (fst (parseMeta (field_Tag f))) = Ok flag)
              (filter eligible (map fst fields)) new.
Proof.
  induction fields as [|[f v] fields IH]; intros flags0 flags H; simpl in H.
  - injection H as <-. exists []. split; [now rewrite app_nil_r | constructor].
  - destruct (parseMeta (field_Tag f)) as [meta [e|]] eqn:Hmeta; [discriminate|].
    cbn [map fst filter].
    destruct (eligible f) eqn:Hel.
    + destruct (flagFromType f meta) as [flag|e|p] eqn:Hflag; try discriminate.
      destruct (IH _ _ H) as (new & -> & Hall).
      exists (flag :: new). split; [now rewrite <- app_assoc|].
      constructor; [now rewrite Hmeta | exact Hall].
    + apply IH, H.
Qed.

Lemma Forall2_combine_In {A B : Type} (P : A -> B -> Prop) (l1 : list A) (l2 : list B) :
  Forall2 P l1 l2 -> forall a b, In (a, b) (combine l1 l2) -> P a b.
Proof.
  induction 1 as [|x y l1 l2 Hxy _ IH]; intros a b Hin; simpl in Hin; [contradiction|].
  destruct Hin as [[= <- <-]|Hin]; [exact Hxy | now apply IH].
Qed.

(** ** Reading a flag back *)

Lemma genericSliceOf_id {A : Type} (slice : list A) : genericSliceOf slice = slice.
Proof.
  unfold genericSliceOf.
  assert (forall acc : list A,
             fold_left (fun sliceAddr v => sliceAddr ++ [v])%list slice acc
             = (acc ++ slice)%list) as H.
  { induction slice as [|x slice IH]; intros acc; simpl.
    - now rewrite app_nil_r.
    - rewrite IH, <- app_assoc. reflexivity. }
  apply H.
Qed.

(** The switch of [Flags] has a case exactly for the supported types. *)
Lemma readFlag_supported (t : rtype) (c : Context) (name : string) :
  supported t = true -> exists v, readFlag (type_String t) c name = Some v.
Proof.
  intros H. by_supported H; unfold readFlag; rewrite <- H; eval_eqb;
    eexists; reflexivity.
Qed.

Lemma readFlag_unsupported (t : rtype) (c : Context) (name : string) :
  supported t = false -> readFlag (type_String t) c name = None.
Proof.
  intros H. unfold supported in H. simpl in H.
  repeat (apply orb_false_iff in H; destruct H as [? H]).
  unfold readFlag.
  repeat match goal with E : String.eqb _ _ = false |- _ => rewrite E; clear E end.
  reflexivity.
Qed.

Lemma readFlag_agree (ty : string) (c1 c2 : Context) (name : string) :
  ctxAgree c1 c2 name -> readFlag ty c1 name = readFlag ty c2 name.
Proof.
  intros (H1 & H2 & H3 & H4 & H5 & H6 & H7 & H8 & H9 & H10 & H11).
  unfold readFlag.
  rewrite H1, H2, H3, H4, H5, H6, H7, H8, H9, H10, H11. reflexivity.
Qed.

(** ** Writing a field of the new struct *)

Lemma setFieldByName_fst (name : string) (v : value) (fields : list (StructField * value)) :
  map fst (setFieldByName name v fields) = map fst fields.
Proof.
  induction fields as [|[f old] fields IH]; simpl; [reflexivity|].
  destruct (String.eqb (field_Name f) name); simpl; [reflexivity | now rewrite IH].
Qed.

Lemma lookupField_set_same (name : string) (v : value) (fields : list (StructField * value)) :
  In name (map field_Name (map fst fields)) ->
  lookupField name (setFieldByName name v fields) = Some v.
Proof.
  induction fields as [|[f old] fields IH]; simpl; [contradiction|].
  intros H. destruct (String.eqb (field_Name f) name) eqn:E; simpl; rewrite E.
  - reflexivity.
  - apply IH. destruct H as [H|H]; [|exact H].
    apply String.eqb_neq in E. contradiction.
Qed.

Lemma lookupField_set_other (name name' : string) (v : value)
      (fields : list (StructField * value)) :
  name' <> name ->
  lookupField name' (setFieldByName name v fields) = lookupField name' fields.
Proof.
  intros Hne. induction fields as [|[f old] fields IH]; simpl; [reflexivity|].
  destruct (String.eqb (field_Name f) name) eqn:E; simpl.
  - apply String.eqb_eq in E.
    assert (String.eqb (field_Name f) name' = false) as ->; [|reflexivity].
    apply String.eqb_neq. congruence.
  - now rewrite IH.
Qed.

(** A write under the name of an eligible field leaves every field that
    is not eligible as it was. *)
Lemma setFieldByName_frame (P : StructField * value -> Prop) (name : string) (v : value)
      (fields : list (StructField * value)) :
  (forall f x, field_Name f = name -> P (f, x)) ->
  Forall P fields -> Forall P (setFieldByName name v fields).
Proof.
  intros Hname. induction 1 as [|[f old] fields Hp Hrest IH]; simpl; [constructor|].
  destruct (String.eqb (field_Name f) name) eqn:E.
  - constructor; [|exact Hrest]. apply Hname. now apply String.eqb_eq.
  - constructor; assumption.
Qed.

(** ** The loop of [Flags] *)

Lemma flagsLoop_no_Err (c : Context) (fields : list StructField) :
  forall rv e, flagsLoop c fields rv <> Err e.
Proof.
  induction fields as [|f fields IH]; intros rv e; simpl; [discriminate|].
  destruct (parseMeta (field_Tag f)) as [meta [e'|]]; [discriminate|].
  destruct (eligible f); [|apply IH].
  destruct (flagFromType f meta); try discriminate.
  destruct (readFlag _ _ _); [apply IH | discriminate].
Qed.

Lemma flagsLoop_total (c : Context) (fields : list StructField) :
  Forall wellTagged fields ->
  forall rv, exists r, flagsLoop c fields rv = Ok r.
Proof.
  induction 1 as [|f fields [Htag Hsup] Hrest IH]; intros rv; simpl.
  - now exists rv.
  - destruct (parseMeta (field_Tag f)) as [meta [e|]]; [discriminate|].
    destruct (eligible f); [|apply IH].
    destruct (flagFromType_supported f meta (Hsup eq_refl)) as [flag ->].
    destruct (readFlag_supported (field_Type f) c (GetName flag) (Hsup eq_refl)) as [v ->].
    apply IH.
Qed.

Lemma flagsLoop_ok_wellTagged (c : Context) (fields : list StructField) :
  forall rv r, flagsLoop c fields rv = Ok r -> Forall wellTagged fields.
Proof.
  induction fields as [|f fields IH]; intros rv r H; simpl in H; [constructor|].
  destruct (parseMeta (field_Tag f)) as [meta [e|]] eqn:Hmeta; [discriminate|].
  destruct (eligible f) eqn:Hel.
  - destruct (flagFromType f meta) as [flag|e|p] eqn:Hflag; try discriminate.
    destruct (readFlag _ _ _); [|discriminate].
    constructor; [|eapply IH; eassumption]. split; [now rewrite Hmeta|].
    intros _. eapply flagFromType_ok_supported; eassumption.
  - constructor; [|eapply IH; eassumption]. split; [now rewrite Hmeta|].
    intros Habs. congruence.
Qed.

(** The names under which the loop queries the context are those of
    [fieldFlagName]: contexts that agree there give the same outcome. *)
Lemma flagsLoop_agree (c1 c2 : Context) (fields : list StructField) :
  (forall name, In name (map fieldFlagName (filter eligible fields)) ->
                ctxAgree c1 c2 name) ->
  forall rv, flagsLoop c1 fields rv = flagsLoop c2 fields rv.
Proof.
  induction fields as [|f fields IH]; intros Hagree rv; simpl; [reflexivity|].
  cbn [filter] in Hagree.
  destruct (parseMeta (field_Tag f)) as [meta [e|]] eqn:Hmeta; [reflexivity|].
  destruct (eligible f) eqn:Hel.
  - destruct (flagFromType f meta) as [flag|e|p] eqn:Hflag; try reflexivity.
    assert (GetName flag = fieldFlagName f) as Hname.
    { unfold GetName, fieldFlagName.
      rewrite (flagFromType_fields f meta flag Hflag), Hmeta. reflexivity. }
    rewrite (readFlag_agree _ c1 c2 (GetName flag)).
    + destruct (readFlag _ c2 _); [|reflexivity].
      apply IH. intros name Hin. apply Hagree. right. exact Hin.
    + apply Hagree. left. symmetry. exact Hname.
  - apply IH, Hagree.
Qed.

Lemma flagsLoop_fst (c : Context) (fields : list StructField) :
  forall rv r, flagsLoop c fields rv = Ok r -> map fst r = map fst rv.
Proof.
  induction fields as [|f fields IH]; intros rv r H; simpl in H.
  - now injection H as <-.
  - destruct (parseMeta (field_Tag f)) as [meta [e|]]; [discriminate|].
    destruct (eligible f); [|eapply IH; eassumption].
    destruct (flagFromType f meta); try discriminate.
    destruct (readFlag _ _ _); [|discriminate].
    rewrite (IH _ _ H). apply setFieldByName_fst.
Qed.

(** Fields whose name does not start with [Flag] are never written. *)
Lemma flagsLoop_frame (P : StructField * value -> Prop) (c : Context)
      (fields : list StructField) :
  (forall f x, eligible f = true -> P (f, x)) ->
  forall rv r, flagsLoop c fields rv = Ok r -> Forall P rv -> Forall P r.
Proof.
  intros Hel. induction fields as [|f fields IH]; intros rv r H Hrv; simpl in H.
  - now injection H as <-.
  - destruct (parseMeta (field_Tag f)) as [meta [e|]]; [discriminate|].
    destruct (eligible f) eqn:Ef; [|eapply IH; eassumption].
    destruct (flagFromType f meta); try discriminate.
    destruct (readFlag _ _ _); [|discriminate].
    eapply IH; [eassumption|]. apply setFieldByName_frame; [|exact Hrv].
    intros g x Hg. apply Hel. unfold eligible in *. now rewrite Hg.
Qed.

(** A field whose name the loop does not meet is left alone. *)
Lemma flagsLoop_lookup_other (c : Context) (fields : list StructField) (name : string) :
  ~ In name (map field_Name fields) ->
  forall rv r, flagsLoop c fields rv = Ok r -> lookupField name r = lookupField name rv.
Proof.
  induction fields as [|f fields IH]; intros Hnot rv r H; simpl in H.
  - now injection H as <-.
  - simpl in Hnot.
    destruct (parseMeta (field_Tag f)) as [meta [e|]]; [discriminate|].
    destruct (eligible f); [|eapply IH; [tauto | eassumption]].
    destruct (flagFromType f meta); try discriminate.
    destruct (readFlag _ _ _); [|discriminate].
    rewrite (IH ltac:(tauto) _ _ H). apply lookupField_set_other.
    intros ->. tauto.
Qed.

(** What the loop leaves in an eligible field: the value read from the
    context under the field's flag name. *)
Lemma flagsLoop_lookup (c : Context) (fields : list StructField) :
  NoDup (map field_Name fields) ->
  forall rv r,
    flagsLoop c fields rv = Ok r ->
    incl (map field_Name fields) (map field_Name (map fst rv)) ->
    forall f meta flag,
      In f fields -> eligible f = true ->
      parseMeta (field_Tag f) = (meta, None) ->
      flagFromType f meta = Ok flag ->
      lookupField (field_Name f) r
      = readFlag (type_String (field_Type f)) c (GetName flag).
Proof.
  induction fields as [|g fields IH]; intros Hnd rv r H Hincl f meta flag Hin Hel Hmeta Hflag.
  - contradiction.
  - simpl in H. cbn [map] in Hnd, Hincl. inversion Hnd as [|? ? Hfresh Hnd']; subst.
    destruct Hin as [->|Hin].
    + rewrite Hmeta, Hel, Hflag in H.
      destruct (readFlag _ _ _) as [v|] eqn:Hread; [|discriminate].
      rewrite (flagsLoop_lookup_other c fields (field_Name f) Hfresh _ _ H).
      apply lookupField_set_same. apply Hincl. now left.
    + assert (forall rv' : list (StructField * value), map fst rv' = map fst rv ->
                          incl (map field_Name fields) (map field_Name (map fst rv'))) as Hsub.
      { intros rv' E. rewrite E. intros x Hx. apply Hincl. now right. }
      destruct (parseMeta (field_Tag g)) as [metag [e|]]; [discriminate|].
      destruct (eligible g).
      * destruct (flagFromType g metag); try discriminate.
        destruct (readFlag _ _ _); [|discriminate].
        eapply IH; try eassumption. apply Hsub, setFieldByName_fst.
      * eapply IH; try eassumption. now apply Hsub.
Qed.

(** ** Round trip of a default *)

Lemma Ok_inj {A : Type} (a b : A) : Ok a = Ok b -> a = b.
Proof. congruence. Qed.

Lemma int64_int_id (z : Z) : conv.inInt64 z -> conv.int64 (conv.int z) = z.
Proof. intros H. now rewrite (int_id z H), int64_id. Qed.

Lemma uint64_uint_id (z : Z) : conv.inUint64 z -> conv.uint64 (conv.uint z) = z.
Proof. intros H. now rewrite (uint_id z H), uint64_id. Qed.

Lemma map_Atoi_int64 (l : list string) :
  map (fun s => conv.int64 (fst (strconv.Atoi s))) l
  = map (fun s => fst (strconv.Atoi s)) l.
Proof.
  apply map_ext. intros s. apply int64_id, Atoi_range.
Qed.

(** One field: the flag made by [flagFromType], looked up in a context
    that holds the flag's default, reads back as the coerced default. *)
Lemma readFlag_roundtrip (f : StructField) (meta : commandMetadata) (flag : Flag)
      (c : Context) :
  (forall s, float32 (fst (ParseFloat s 32)) = fst (ParseFloat s 32)) ->
  flagFromType f meta = Ok flag ->
  preloaded c flag ->
  readFlag (type_String (field_Type f)) c (GetName flag)
  = Some (coercedDefault (field_Type f) (meta_Default meta)).
Proof.
  intros H32 Hf. pose proof (flagFromType_ok_supported f meta flag Hf) as H.
  revert Hf. by_supported H; unfold flagFromType, readFlag, coercedDefault;
    rewrite <- H; eval_eqb.
  - intros <-%Ok_inj Hp. unfold preloaded in Hp. rewrite Hp.
    now rewrite int64_int_id by apply ParseInt_range.
  - intros <-%Ok_inj Hp. unfold preloaded in Hp. now rewrite Hp.
  - intros <-%Ok_inj Hp. unfold preloaded in Hp. rewrite Hp.
    now rewrite uint64_uint_id by apply ParseUint_range.
  - intros <-%Ok_inj Hp. unfold preloaded in Hp. now rewrite Hp.
  - intros <-%Ok_inj Hp. unfold preloaded in Hp. now rewrite Hp, H32.
  - intros <-%Ok_inj Hp. unfold preloaded in Hp. now rewrite Hp.
  - destruct (fst (strconv.ParseBool _)); cbn [negb];
      intros <-%Ok_inj Hp; unfold preloaded in Hp; now rewrite Hp.
  - intros <-%Ok_inj Hp. unfold preloaded in Hp. now rewrite Hp.
  - intros <-%Ok_inj Hp. unfold preloaded in Hp. now rewrite Hp.
  - intros <-%Ok_inj Hp. unfold preloaded in Hp. rewrite Hp, genericSliceOf_id.
    destruct (String.eqb _ ""); reflexivity.
  - intros <-%Ok_inj Hp. unfold preloaded in Hp. rewrite Hp, genericSliceOf_id.
    destruct (String.eqb _ ""); cbn [negb]; [reflexivity|].
    now rewrite map_Atoi_int64.
  - intros <-%Ok_inj Hp. unfold preloaded in Hp. rewrite Hp, genericSliceOf_id.
    destruct (String.eqb _ ""); reflexivity.
Qed.

Lemma deref_Flags (v : GoValue) (o : Object) (c : Context) :
  deref v = Some o ->
  Flags (Some v) c =
  match flagsLoop c (map fst (obj_Fields o)) (newStruct (obj_Fields o)) with
  | Ok resultValue => Ok (mkObject (obj_TypeName o) resultValue)
  | Err e => Err e
  | Panic p => Panic p
  end.
Proof. intros H. unfold Flags. now rewrite H. Qed.

Lemma newStruct_fst (fields : list (StructField * value)) :
  map fst (newStruct fields) = map fst fields.
Proof.
  unfold newStruct. rewrite map_map. apply map_ext. reflexivity.
Qed.

(** C1.  Round trip.  Take a struct (its field names are distinct, as Go
    requires) whose tags parse and whose [Flag...] fields have supported
    types.  [Flags]
    returns a new instance, and for each eligible field: if the context
    answers the lookup of the flag synthesized by [flagFromType] with that
    flag's default, the field of the new instance holds the default
    literal coerced to the field's type; a duration comes back as the
    nanosecond count the context held.  The only fact used about the
    libraries is that [ParseFloat s 32] returns a value that converts to
    [float32] unchanged. *)
Theorem Flags_roundtrip (v : GoValue) (o : Object) (c : Context)
        (H32 : forall s, float32 (fst (ParseFloat s 32)) = fst (ParseFloat s 32))
        (Hderef : deref v = Some o)
        (Hnames : NoDup (map field_Name (map fst (obj_Fields o))))
        (Htags : Forall wellTagged (map fst (obj_Fields o))) :
  exists r,
    Flags (Some v) c = Ok r /\
    forall f meta flag,
      In f (map fst (obj_Fields o)) ->
      eligible f = true ->
      parseMeta (field_Tag f) = (meta, None) ->
      flagFromType f meta = Ok flag ->
      preloaded c flag ->
      FieldByName r (field_Name f)
      = Some (coercedDefault (field_Type f) (meta_Default meta)).
Proof.
  rewrite (deref_Flags v o c Hderef).
  destruct (flagsLoop_total c _ Htags (newStruct (obj_Fields o))) as [rv Hrv].
  rewrite Hrv. eexists. split; [reflexivity|].
  intros f meta flag Hin Hel Hmeta Hflag Hpre.
  unfold FieldByName. cbn [obj_Fields].
  rewrite (flagsLoop_lookup c _ Hnames _ _ Hrv) with (meta := meta) (flag := flag);
    try assumption.
  - now apply readFlag_roundtrip.
  - rewrite newStruct_fst. apply incl_refl.
Qed.

(** ** The new instance *)

Lemma newStruct_zero (fields : list (StructField * value)) :
  Forall (fun fx => snd fx = zeroValue (field_Type (fst fx))) (newStruct fields).
Proof.
  unfold newStruct. apply Forall_forall. intros fx Hin.
  apply in_map_iff in Hin. destruct Hin as (y & <- & _). reflexivity.
Qed.

Lemma Flags_ok_inv (obj : option GoValue) (c : Context) (r : Object) :
  Flags obj c = Ok r ->
  exists v o rv,
    obj = Some v /\ deref v = Some o /\
    flagsLoop c (map fst (obj_Fields o)) (newStruct (obj_Fields o)) = Ok rv /\
    r = mkObject (obj_TypeName o) rv.
Proof.
  unfold Flags. destruct obj as [v|]; [|discriminate].
  destruct (deref v) as [o|] eqn:Hd; [|discriminate].
  destruct (flagsLoop _ _ _) as [rv| |] eqn:Hl; try discriminate.
  intros [= <-]. now exists v, o, rv.
Qed.

(** C10.  The instance [Flags] returns is built from the type alone: it
    has the fields of the template's type, every field whose name does not
    begin with [Flag] -- the leading [Command] among them -- holds the zero
    value of its type, and a template of the same type with other field
    values gives the same instance.  [Flags] does return one whenever the
    tags parse and the [Flag...] fields have supported types. *)
Theorem Flags_leaves_other_fields_zero (v : GoValue) (o : Object) (c : Context)
        (Hderef : deref v = Some o) :
  (forall r,
      Flags (Some v) c = Ok r ->
      obj_TypeName r = obj_TypeName o /\
      map fst (obj_Fields r) = map fst (obj_Fields o) /\
      (forall f x, In (f, x) (obj_Fields r) ->
                   strings.HasPrefix (field_Name f) "Flag" = false ->
                   x = zeroValue (field_Type f)) /\
      (forall v' o',
          deref v' = Some o' ->
          obj_TypeName o' = obj_TypeName o ->
          map fst (obj_Fields o') = map fst (obj_Fields o) ->
          Flags (Some v') c = Ok r)) /\
  (Forall wellTagged (map fst (obj_Fields o)) -> exists r, Flags (Some v) c = Ok r).
Proof.
  split.
  - intros r Hr. apply Flags_ok_inv in Hr.
    destruct Hr as (v1 & o1 & rv & [= <-] & Hd & Hloop & ->).
    rewrite Hderef in Hd. injection Hd as <-. cbn [obj_TypeName obj_Fields].
    repeat split.
    + rewrite (flagsLoop_fst _ _ _ _ Hloop). apply newStruct_fst.
    + intros f x Hin Hne.
      pose proof (flagsLoop_frame
                    (fun fx => eligible (fst fx) = false ->
                               snd fx = zeroValue (field_Type (fst fx)))
                    c _ ltac:(cbn; intros; congruence) _ _ Hloop) as Hframe.
      assert (Forall (fun fx => eligible (fst fx) = false ->
                                snd fx = zeroValue (field_Type (fst fx))) rv) as Hall.
      { apply Hframe. eapply Forall_impl; [|apply newStruct_zero]. auto. }
      rewrite Forall_forall in Hall. exact (Hall (f, x) Hin Hne).
    + intros v' o' Hd' Hname Hfields. rewrite (deref_Flags v' o' c Hd').
      assert (newStruct (obj_Fields o') = newStruct (obj_Fields o)) as ->.
      { unfold newStruct.
        rewrite <- (map_map fst (fun f => (f, zeroValue (field_Type f)))).
        rewrite <- (map_map fst (fun f => (f, zeroValue (field_Type f))) (obj_Fields o)).
        now rewrite Hfields. }
      now rewrite Hfields, Hloop, Hname.
  - intros Hw. rewrite (deref_Flags v o c Hderef).
    destruct (flagsLoop_total c _ Hw (newStruct (obj_Fields o))) as [rv ->].
    eexists. reflexivity.
Qed.

(** ** One naming for the builder and the extractor *)

Lemma getCommand_ok (f0 : StructField) (v0 : value) (cmd : Command) :
  getCommand f0 v0 = Ok cmd ->
  field_Name f0 = "Command" /\ snd (parseMeta (field_Tag f0)) = None /\
  cmd_Flags cmd = [] /\ cmd_Usage cmd = meta_Usage (fst (parseMeta (field_Tag f0))) /\
  exists c0, v0 = VCommand c0 /\ cmd_Action cmd = cmd_Action c0.
Proof.
  unfold getCommand.
  destruct (String.eqb_spec (field_Name f0) "Command") as [Hn|]; [|discriminate].
  cbn [negb]. destruct (kindIsStruct v0); [|discriminate]. cbn [negb].
  destruct v0; try discriminate.
  destruct (parseMeta (field_Tag f0)) as [meta [e|]]; [discriminate|].
  intros [= <-]. cbn. repeat split; try assumption. eexists; split; reflexivity.
Qed.

Lemma commandFromObject_ok (v : GoValue) (o : Object) (cmd : Command) :
  deref v = Some o ->
  commandFromObject (Some v) = Ok cmd ->
  exists f0 v0 rest c0,
    obj_Fields o = (f0, v0) :: rest /\
    obj_TypeName o <> "" /\
    getCommand f0 v0 = Ok c0 /\
    commandFlags rest [] = Ok (cmd_Flags cmd) /\
    cmd = mkCommand (strings.ToLower (obj_TypeName o)) (cmd_Usage c0)
                    (cmd_Description c0) (cmd_Action c0) (cmd_Flags cmd).
Proof.
  intros Hd. unfold commandFromObject. rewrite Hd.
  destruct (String.eqb_spec (obj_TypeName o) "") as [|Hne]; [discriminate|].
  destruct (obj_Fields o) as [|[f0 v0] rest]; [discriminate|].
  destruct (getCommand f0 v0) as [c0| |] eqn:Hc; try discriminate.
  pose proof (getCommand_ok _ _ _ Hc) as (_ & _ & Hnil & _).
  rewrite Hnil.
  destruct (commandFlags rest []) as [flags| |] eqn:Hf; try discriminate.
  intros [= <-]. exists f0, v0, rest, c0. cbn. repeat split; assumption.
Qed.

Lemma Command_not_eligible (f0 : StructField) :
  field_Name f0 = "Command" -> eligible f0 = false.
Proof. unfold eligible. intros ->. reflexivity. Qed.

(** C2.  The flag name and the environment variable name are functions of
    the field name and of the tag's [name:] alone ([flagName], [envName]).
    The flags that [commandFromObject] gives a command are, field by
    field and in order, those of the eligible fields, each under the name
    [fieldFlagName] of its field and with [envName] of that name for
    environment variable.  [Flags] on the same struct returns, and the
    value it gives each eligible field is the answer of the context to
    the name of the very flag the command has for that field: the
    builder and the extractor use one name per field.  Hence two contexts
    that agree on the names of the command's flags give the same
    instance. *)
Theorem flag_names_shared (v : GoValue) (o : Object) (cmd : Command)
        (c1 c2 : Context)
        (Hderef : deref v = Some o)
        (Hnames : NoDup (map field_Name (map fst (obj_Fields o))))
        (Hcmd : commandFromObject (Some v) = Ok cmd) :
  let flagFields := filter eligible (map fst (obj_Fields o)) in
  let names := map fieldFlagName flagFields in
  map GetName (cmd_Flags cmd) = names /\
  map (fun fl => flag_EnvVar (fieldsOf fl)) (cmd_Flags cmd) = map envName names /\
  (forall f meta flag,
      flagFromType f meta = Ok flag ->
      GetName flag = flagName (field_Name f) (meta_Name meta) /\
      flag_EnvVar (fieldsOf flag) = envName (GetName flag)) /\
  Forall2 (fun f flag =>
             flagFromType f (fst (parseMeta (field_Tag f))) = Ok flag /\
             GetName flag = fieldFlagName f)
          flagFields (cmd_Flags cmd) /\
  (exists r,
      Flags (Some v) c1 = Ok r /\
      forall f flag,
        In (f, flag) (combine flagFields (cmd_Flags cmd)) ->
        exists x,
          readFlag (type_String (field_Type f)) c1 (GetName flag) = Some x /\
          FieldByName r (field_Name f) = Some x) /\
  ((forall name, In name names -> ctxAgree c1 c2 name) ->
   Flags (Some v) c1 = Flags (Some v) c2).
Proof.
  cbn zeta.
  destruct (commandFromObject_ok v o cmd Hderef Hcmd)
    as (f0 & v0 & rest & c0 & Hfields & Hname & Hget & Hflags & _).
  destruct (getCommand_ok _ _ _ Hget) as (Hn0 & Htag0 & _).
  destruct (commandFlags_ok _ _ _ Hflags) as (Hw & Hflagnames & Henv).
  destruct (commandFlags_Forall2 _ _ _ Hflags) as (new & Hnew & Hmade).
  cbn [app] in Hnew. subst new.
  assert (Forall wellTagged (map fst (obj_Fields o))) as Hall.
  { rewrite Hfields. cbn [map fst]. constructor; [|exact Hw]. split; [exact Htag0|].
    rewrite (Command_not_eligible f0 Hn0). discriminate. }
  assert (filter eligible (map fst (obj_Fields o)) = filter eligible (map fst rest))
    as Hfilter.
  { rewrite Hfields. cbn [map fst filter]. now rewrite (Command_not_eligible f0 Hn0). }
  rewrite Hfilter.
  assert (Forall2 (fun f flag =>
                     flagFromType f (fst (parseMeta (field_Tag f))) = Ok flag /\
                     GetName flag = fieldFlagName f)
                  (filter eligible (map fst rest)) (cmd_Flags cmd)) as Hpairs.
  { eapply Forall2_impl; [|exact Hmade]. intros f flag Hflag. split; [exact Hflag|].
    unfold GetName, fieldFlagName. now rewrite (flagFromType_fields _ _ _ Hflag). }
  split; [exact Hflagnames|].
  split; [rewrite Henv; cbn [map app]; now rewrite map_map|].
  split.
  { intros f meta flag H. split; unfold GetName;
      now rewrite (flagFromType_fields f meta flag H). }
  split; [exact Hpairs|].
  split.
  - rewrite (deref_Flags v o c1 Hderef).
    destruct (flagsLoop_total c1 _ Hall (newStruct (obj_Fields o))) as [rv Hrv].
    rewrite Hrv. eexists. split; [reflexivity|].
    intros f flag Hin. unfold FieldByName. cbn [obj_Fields].
    destruct (Forall2_combine_In _ _ _ Hpairs f flag Hin) as [Hflag _].
    apply in_combine_l in Hin. rewrite <- Hfilter in Hin.
    apply filter_In in Hin. destruct Hin as [Hin Hel].
    rewrite Forall_forall in Hall. destruct (Hall f Hin) as [Htag Hsup].
    destruct (readFlag_supported (field_Type f) c1 (GetName flag) (Hsup Hel)) as [x Hx].
    exists x. split; [exact Hx|]. rewrite <- Hx.
    apply (flagsLoop_lookup c1 _ Hnames _ _ Hrv) with (meta := fst (parseMeta (field_Tag f)));
      try assumption.
    + rewrite newStruct_fst. apply incl_refl.
    + destruct (parseMeta (field_Tag f)) as [meta err]. cbn [snd] in Htag. now subst err.
  - intros Hagree. rewrite !(deref_Flags v o _ Hderef).
    rewrite (flagsLoop_agree c1 c2); [reflexivity|].
    now rewrite Hfilter.
Qed.

(** ** Unsupported types *)

Lemma prefix_refl (s : string) : String.prefix s s = true.
Proof.
  induction s as [|c s IH]; simpl; [reflexivity|].
  destruct (ascii_dec c c); [exact IH | contradiction].
Qed.

Lemma contains_append (a b : string) : contains (a ++ b) b = true.
Proof.
  induction a as [|c a IH].
  - change ("" ++ b) with b. destruct b as [|d b]; [reflexivity|].
    cbn [contains]. now rewrite prefix_refl.
  - change (String c a ++ b) with (String c (a ++ b)). cbn [contains].
    rewrite IH. apply orb_true_r.
Qed.

(** A struct with an eligible field of unsupported type makes the loop of
    [Flags] panic, whatever else it holds. *)
Lemma flagsLoop_unsupported_panics (c : Context) (f : StructField)
      (fields : list StructField) :
  In f fields -> eligible f = true -> supported (field_Type f) = false ->
  forall rv, exists p, flagsLoop c fields rv = Panic p.
Proof.
  intros Hin Hel Hun. induction fields as [|g fields IH]; intros rv; [contradiction|].
  simpl. destruct (parseMeta (field_Tag g)) as [meta [e|]]; [eexists; reflexivity|].
  destruct Hin as [->|Hin].
  - rewrite Hel, (flagFromType_unsupported f meta Hun). eexists; reflexivity.
  - destruct (eligible g); [|apply IH, Hin].
    destruct (flagFromType g meta); try (eexists; reflexivity).
    destruct (readFlag _ _ _); [apply IH, Hin | eexists; reflexivity].
Qed.

Lemma flagsLoop_app (c : Context) (pre rest : list StructField) :
  forall rv,
    flagsLoop c (pre ++ rest)%list rv =
    match flagsLoop c pre rv with
    | Ok rv' => flagsLoop c rest rv'
    | other => other
    end.
Proof.
  induction pre as [|f pre IH]; intros rv; simpl; [reflexivity|].
  destruct (parseMeta (field_Tag f)) as [meta [e|]]; [reflexivity|].
  destruct (eligible f); [|apply IH].
  destruct (flagFromType f meta); try reflexivity.
  destruct (readFlag _ _ _); [apply IH | reflexivity].
Qed.

(** C8.  An eligible field whose type is outside the supported set makes
    [flagFromType] fail with an error whose text names the type, so
    [commandFromObject]'s loop stops with that error instead of skipping
    the field.  [Flags] has a case for the same types and no others
    ([readFlag]), and it fails as well: it panics on every struct holding
    such a field, and when the field is the first fault of the struct the
    panic carries that same unsupported-type error. *)
Theorem unsupported_type_fails (f : StructField) (meta : commandMetadata)
        (Hel : eligible f = true)
        (Hun : supported (field_Type f) = false) :
  let ty := type_String (field_Type f) in
  let e := unsupportedFlagType ty in
  flagFromType f meta = Err e /\
  errorText e = "unsupported flag generator type: " ++ ty /\
  contains (errorText e) ty = true /\
  (forall c name, readFlag ty c name = None) /\
  (forall t c name, readFlag (type_String t) c name = None <-> supported t = false) /\
  (forall v o c,
      deref v = Some o -> In f (map fst (obj_Fields o)) ->
      exists p, Flags (Some v) c = Panic p) /\
  (forall v o c pre post,
      deref v = Some o ->
      map fst (obj_Fields o) = (pre ++ f :: post)%list ->
      Forall wellTagged pre ->
      parseMeta (field_Tag f) = (meta, None) ->
      Flags (Some v) c = Panic (PanicErr (ErrWrap e flagWrapMessage))) /\
  (forall pre x post flags,
      Forall wellTagged (map fst pre) ->
      parseMeta (field_Tag f) = (meta, None) ->
      commandFlags (pre ++ (f, x) :: post)%list flags = Err (ErrWrap e flagWrapMessage)).
Proof.
  cbn zeta. repeat split.
  - now apply flagFromType_unsupported.
  - apply contains_append.
  - intros c name. now apply readFlag_unsupported.
  - intros H. destruct (supported t) eqn:E; [|reflexivity].
    destruct (readFlag_supported t c name E) as [x Hx]. congruence.
  - apply readFlag_unsupported.
  - intros v o c Hd Hin. rewrite (deref_Flags v o c Hd).
    destruct (flagsLoop_unsupported_panics c f _ Hin Hel Hun (newStruct (obj_Fields o)))
      as [p ->].
    eexists; reflexivity.
  - intros v o c pre post Hd Hfields Hpre Hmeta.
    rewrite (deref_Flags v o c Hd), Hfields, flagsLoop_app.
    destruct (flagsLoop_total c pre Hpre (newStruct (obj_Fields o))) as [rv ->].
    simpl. now rewrite Hmeta, Hel, (flagFromType_unsupported f meta Hun).
  - intros pre x post flags Hpre Hmeta. rewrite commandFlags_app.
    destruct (commandFlags_total pre Hpre flags) as [flags' ->].
    simpl. now rewrite Hmeta, Hel, (flagFromType_unsupported f meta Hun).
Qed.

(** ** Errors of the command synthesizer *)

Lemma flagFromType_error (f : StructField) (meta : commandMetadata) (e : error) :
  flagFromType f meta = Err e -> e = unsupportedFlagType (type_String (field_Type f)).
Proof.
  intros H. destruct (supported (field_Type f)) eqn:E.
  - destruct (flagFromType_supported f meta E) as [flag Hflag]. congruence.
  - rewrite (flagFromType_unsupported f meta E) in H. congruence.
Qed.

(** C9 (amended).  When [flagFromType] fails on an eligible field, the
    first fault of the struct, [commandFromObject] returns that error
    wrapped with the fixed message [failed to generate flag from struct
    field]; the wrapped error names the field's type, and the whole error
    is the same for every field name. *)
Theorem flag_error_wrapped_with_fixed_message
        (v : GoValue) (o : Object) (f0 : StructField) (v0 : value) (c0 : Command)
        (pre post : list (StructField * value)) (f : StructField) (x : value)
        (meta : commandMetadata) (e : error)
        (Hderef : deref v = Some o)
        (Hnamed : obj_TypeName o <> "")
        (Hfields : obj_Fields o = ((f0, v0) :: pre ++ (f, x) :: post)%list)
        (Hcommand : getCommand f0 v0 = Ok c0)
        (Hpre : Forall wellTagged (map fst pre))
        (Hmeta : parseMeta (field_Tag f) = (meta, None))
        (Hel : eligible f = true)
        (Hflag : flagFromType f meta = Err e) :
  commandFromObject (Some v) = Err (ErrWrap e flagWrapMessage) /\
  e = unsupportedFlagType (type_String (field_Type f)) /\
  errorText (ErrWrap e flagWrapMessage)
  = "failed to generate flag from struct field: unsupported flag generator type: "
    ++ type_String (field_Type f).
Proof.
  pose proof (flagFromType_error f meta e Hflag) as He.
  repeat split.
  - unfold commandFromObject. rewrite Hderef.
    destruct (String.eqb_spec (obj_TypeName o) "") as [|_]; [contradiction|].
    rewrite Hfields, Hcommand.
    destruct (getCommand_ok _ _ _ Hcommand) as (_ & _ & -> & _).
    rewrite commandFlags_app.
    destruct (commandFlags_total pre Hpre []) as [flags' ->].
    simpl. now rewrite Hmeta, Hel, Hflag.
  - exact He.
  - subst e. reflexivity.
Qed.

(** ** Flattening *)

Lemma ToLower_nonempty (s : string) : s <> "" -> strings.ToLower s <> "".
Proof. destruct s; [contradiction | discriminate]. Qed.

Lemma commandFromObject_named (obj : option GoValue) (cmd : Command) :
  commandFromObject obj = Ok cmd -> cmd_Name cmd <> "".
Proof.
  unfold commandFromObject. destruct obj as [v|]; [|discriminate].
  destruct (deref v) as [o|]; [|discriminate].
  destruct (String.eqb_spec (obj_TypeName o) "") as [|Hne]; [discriminate|].
  destruct (obj_Fields o) as [|[f0 v0] rest]; [discriminate|].
  destruct (getCommand f0 v0); try discriminate.
  destruct (commandFlags _ _); try discriminate.
  intros [= <-]. cbn. now apply ToLower_nonempty.
Qed.

Lemma buildCommands_Forall2 (objs : list (option GoValue)) (cmds : list Command) :
  Forall2 (fun obj cmd => commandFromObject obj = Ok cmd) objs cmds ->
  forall acc, buildCommands objs acc = Ok (acc ++ cmds)%list.
Proof.
  induction 1 as [|obj cmd objs cmds Hcmd _ IH]; intros acc; simpl.
  - now rewrite app_nil_r.
  - rewrite Hcmd, IH, <- app_assoc. reflexivity.
Qed.

(** C3.  Given the commands that [commandFromObject] makes of the objects:
    with exactly one object, [build] returns an application whose usage,
    action and flags are that command's and which has no subcommands; with
    more than one, the application keeps all the commands, in order and
    each under a non-empty name, and has no flags of its own. *)
Theorem build_flattens_single_command
        (objs : list (option GoValue)) (cmds : list Command)
        (Hcmds : Forall2 (fun obj cmd => commandFromObject obj = Ok cmd) objs cmds) :
  (length objs = 1%nat ->
   exists cmd,
     cmds = [cmd] /\
     build objs = Ok (mkApp (cmd_Usage cmd) (cmd_Action cmd) (cmd_Flags cmd) [])) /\
  ((1 < length objs)%nat ->
   build objs = Ok (mkApp (app_Usage NewApp) (app_Action NewApp) [] cmds) /\
   length cmds = length objs /\
   Forall (fun cmd => cmd_Name cmd <> "") cmds).
Proof.
  pose proof (buildCommands_Forall2 objs cmds Hcmds []) as Hb. cbn [app] in Hb.
  pose proof (Forall2_length Hcmds) as Hlen.
  split.
  - intros H1. destruct cmds as [|cmd [|cmd' cmds]]; simpl in Hlen; try lia.
    exists cmd. split; [reflexivity|]. unfold build. now rewrite Hb.
  - intros H2. repeat split.
    + unfold build. rewrite Hb.
      destruct cmds as [|cmd [|cmd' cmds]]; simpl in Hlen; try lia. reflexivity.
    + now symmetry.
    + clear Hb Hlen H2. induction Hcmds as [|obj cmd objs cmds Hcmd _ IH]; constructor.
      * eapply commandFromObject_named; eassumption.
      * exact IH.
Qed.

(** ** Booleans *)

(** C5.  For a [bool] field, [flagFromType] makes a [BoolTFlag] when the
    default literal parses to true (one of [1 t T TRUE true True]) and a
    [BoolFlag] otherwise -- for false, for an absent default and for a
    literal that does not parse.  The two are different kinds of flag, and
    a context that does not mention the flag answers true for the first
    and false for the second. *)
Theorem bool_flag_polarity (name tag : string) (isStruct : bool)
        (meta : commandMetadata) :
  let f := mkField name (mkType "bool" isStruct) tag in
  let def := fst (strconv.ParseBool (trimmedDefault meta)) in
  let flag := if def then BoolTFlag (flagBase f meta) else BoolFlag (flagBase f meta) in
  flagFromType f meta = Ok flag /\
  flagValue flag = VBool def /\
  (forall c, preloaded c flag -> ctx_Bool c (GetName flag) = def) /\
  (def = true <-> In (trimmedDefault meta) ["1"; "t"; "T"; "TRUE"; "true"; "True"]) /\
  (forall n u h,
      flagFromType f (mkMeta n u h "true") = Ok (BoolTFlag (flagBase f (mkMeta n u h "true"))) /\
      flagFromType f (mkMeta n u h "false") = Ok (BoolFlag (flagBase f (mkMeta n u h "false"))) /\
      flagFromType f (mkMeta n u h "") = Ok (BoolFlag (flagBase f (mkMeta n u h "")))) /\
  (forall fl fl', BoolTFlag fl <> BoolFlag fl').
Proof.
  cbn zeta. unfold trimmedDefault. repeat split.
  - unfold flagFromType. cbn [field_Type type_String]. eval_eqb.
    destruct (fst (strconv.ParseBool _)); reflexivity.
  - destruct (fst (strconv.ParseBool _)); reflexivity.
  - intros c. destruct (fst (strconv.ParseBool _)); intros H; exact H.
  - unfold strconv.ParseBool.
    destruct (existsb _ ["1"; "t"; "T"; "TRUE"; "true"; "True"]) eqn:E.
    + intros _. apply existsb_exists in E. destruct E as (x & Hin & Hx).
      apply String.eqb_eq in Hx. now subst x.
    + destruct (existsb _ ["0"; "f"; "F"; "FALSE"; "false"; "False"]);
        cbn [fst]; intros Habs; discriminate Habs.
  - intros Hin. unfold strconv.ParseBool.
    assert (existsb (String.eqb (strings.Trim (meta_Default meta) "'"))
                    ["1"; "t"; "T"; "TRUE"; "true"; "True"] = true) as ->; [|reflexivity].
    apply existsb_exists. eexists. split; [exact Hin | apply String.eqb_refl].
  - discriminate.
Qed.

(** ** List defaults *)

(** C6.  For the three list types the default literal (quotes trimmed) is
    split at every comma and each piece converted to the element type
    ([Atoi] for [[]int] and [[]int64], the piece itself for [[]string]);
    the pieces hold no comma, there is one more of them than commas, and
    joined by commas they give the literal back.  An empty literal makes
    the flag's [Value] nil, not an empty list. *)
Theorem list_default_split_or_nil (name tag : string) (isStruct : bool)
        (meta : commandMetadata) :
  let d := trimmedDefault meta in
  let pieces := strings.Split d commaChar in
  let field ty := mkField name (mkType ty isStruct) tag in
  flagFromType (field "[]int") meta
  = Ok (IntSliceFlag (flagBase (field "[]int") meta)
          (if String.eqb d "" then None
           else Some (map (fun s => fst (strconv.Atoi s)) pieces))) /\
  flagFromType (field "[]int64") meta
  = Ok (Int64SliceFlag (flagBase (field "[]int64") meta)
          (if String.eqb d "" then None
           else Some (map (fun s => fst (strconv.Atoi s)) pieces))) /\
  flagFromType (field "[]string") meta
  = Ok (StringSliceFlag (flagBase (field "[]string") meta)
          (if String.eqb d "" then None else Some pieces)) /\
  length pieces = S (countChar commaChar d) /\
  Forall (fun piece => countChar commaChar piece = O) pieces /\
  String.concat "," pieces = d.
Proof.
  cbn zeta. unfold trimmedDefault. repeat split.
  - unfold flagFromType. cbn [field_Type type_String]. eval_eqb.
    destruct (String.eqb _ ""); reflexivity.
  - unfold flagFromType. cbn [field_Type type_String]. eval_eqb.
    destruct (String.eqb _ ""); cbn [negb]; [reflexivity|].
    now rewrite map_Atoi_int64.
  - unfold flagFromType. cbn [field_Type type_String]. eval_eqb.
    destruct (String.eqb _ ""); reflexivity.
  - apply Split_length.
  - apply Split_pieces.
  - apply (Split_concat _ commaChar).
Qed.

(** ** Defaults that do not parse, and [hidden] *)

Lemma withFunc_syntax (fn s : string) (r : Z * option NumErrKind) :
  isSyntaxError (snd (strconv.withFunc fn s r)) = true -> snd r = Some ErrSyntax.
Proof. destruct r as [z [[|]|]]; simpl; intros H; try discriminate; reflexivity. Qed.

Lemma withFunc_range (fn s : string) (r : Z * option NumErrKind) :
  isRangeError (snd (strconv.withFunc fn s r)) = true -> snd r = Some ErrRange.
Proof. destruct r as [z [[|]|]]; simpl; intros H; try discriminate; reflexivity. Qed.

Lemma ParseInt_syntax_zero (s : string) :
  isSyntaxError (snd (strconv.ParseInt s 64)) = true -> fst (strconv.ParseInt s 64) = 0%Z.
Proof. intros H. apply withFunc_syntax in H. now apply ParseInt_kind_spec. Qed.

Lemma ParseUint_syntax_zero (s : string) :
  isSyntaxError (snd (strconv.ParseUint s 64)) = true -> fst (strconv.ParseUint s 64) = 0%Z.
Proof. intros H. apply withFunc_syntax in H. now apply ParseUint_kind_spec. Qed.

Lemma Atoi_syntax_zero (s : string) :
  isSyntaxError (snd (strconv.Atoi s)) = true -> fst (strconv.Atoi s) = 0%Z.
Proof.
  unfold strconv.Atoi. rewrite ParseInt_kind_width. intros H.
  apply withFunc_syntax in H. now apply ParseInt_kind_spec.
Qed.

Lemma ParseInt_range_bound (s : string) :
  isRangeError (snd (strconv.ParseInt s 64)) = true ->
  fst (strconv.ParseInt s 64) = (2 ^ 63 - 1)%Z \/ fst (strconv.ParseInt s 64) = (- 2 ^ 63)%Z.
Proof. intros H. apply withFunc_range in H. now apply ParseInt_kind_spec. Qed.

Lemma ParseUint_range_bound (s : string) :
  isRangeError (snd (strconv.ParseUint s 64)) = true ->
  fst (strconv.ParseUint s 64) = strconv.maxUint64.
Proof. intros H. apply withFunc_range in H. now apply ParseUint_kind_spec. Qed.

Lemma ParseBool_syntax_false (s : string) :
  isSyntaxError (snd (strconv.ParseBool s)) = true -> fst (strconv.ParseBool s) = false.
Proof.
  intros H. apply ParseBool_error_false. intros E. rewrite E in H. discriminate.
Qed.

(** The default a flag is given is the coerced default literal. *)
Lemma flagFromType_value (f : StructField) (meta : commandMetadata) (flag : Flag) :
  flagFromType f meta = Ok flag ->
  flagValue flag = coercedDefault (field_Type f) (meta_Default meta).
Proof.
  intros Hf. pose proof (flagFromType_ok_supported f meta flag Hf) as H.
  revert Hf. by_supported H; unfold flagFromType, coercedDefault;
    rewrite <- H; eval_eqb; try (intros <-%Ok_inj; reflexivity).
  - intros <-%Ok_inj. cbn [flagValue]. now rewrite int_id by apply ParseInt_range.
  - intros <-%Ok_inj. cbn [flagValue]. now rewrite uint_id by apply ParseUint_range.
  - destruct (fst (strconv.ParseBool _)); intros <-%Ok_inj; reflexivity.
  - intros <-%Ok_inj. cbn [flagValue]. destruct (String.eqb _ ""); reflexivity.
  - intros <-%Ok_inj. cbn [flagValue]. destruct (String.eqb _ ""); cbn [negb];
      [reflexivity | now rewrite map_Atoi_int64].
  - intros <-%Ok_inj. cbn [flagValue]. destruct (String.eqb _ ""); reflexivity.
Qed.

Lemma parseSection_hidden (cmdmeta : commandMetadata) (v : string) :
  parseSection cmdmeta ("hidden:" ++ v) =
  (mkMeta (meta_Name cmdmeta) (meta_Usage cmdmeta) (fst (strconv.ParseBool v))
          (meta_Default cmdmeta),
   option_map (fun e => ErrWrap e hiddenWrapMessage) (snd (strconv.ParseBool v))).
Proof.
  unfold parseSection. cbn [append strings.SplitN strings.Cut].
  eval_eqb. cbn. destruct (strconv.ParseBool v) as [b err]. reflexivity.
Qed.

Lemma parseMeta_hidden (v : string) :
  commaOutside false v = false ->
  parseMeta ("hidden:" ++ v) =
  (mkMeta "" "" (fst (strconv.ParseBool v)) "",
   option_map (fun e => ErrWrap e hiddenWrapMessage) (snd (strconv.ParseBool v))).
Proof.
  intros H. unfold parseMeta. rewrite sections_whole; [|discriminate|exact H].
  cbn [parseMeta_loop]. rewrite parseSection_hidden.
  destruct (snd (strconv.ParseBool v)); reflexivity.
Qed.

(** C7 (amended).  For a field of supported type no default literal makes
    [flagFromType] fail: the flag's default is the coerced literal and the
    parser's error is dropped.  A literal rejected with a syntax error
    gives the zero value of the type, for the integer, float and boolean
    types, and so does a duration literal rejected with any error; in a
    list each piece rejected with a syntax error gives a zero element.  An
    integer literal rejected as out of range gives the bound of the type
    it exceeds.  The facts used about the libraries are those their
    documentation states: [ParseFloat] returns 0 with a syntax error and
    [ParseDuration] returns 0 with every error.  The [hidden] key is
    parsed by [strconv.ParseBool]: a section [hidden:v] raises an error,
    and makes [parseMeta] fail with the wrapped error of that function,
    exactly when [v] is not one of [1 t T TRUE true True 0 f F FALSE
    false False]; an empty value is among those that fail. *)
Theorem default_literal_never_fails (f : StructField) (meta : commandMetadata)
        (HFloat : forall s bits,
            isSyntaxError (snd (ParseFloat s bits)) = true ->
            fst (ParseFloat s bits) = float64_zero)
        (HDuration : forall s,
            snd (ParseDuration s) <> None -> fst (ParseDuration s) = 0%Z)
        (Hsup : supported (field_Type f) = true) :
  let t := field_Type f in
  let ty := type_String t in
  let literal := meta_Default meta in
  (exists flag,
      flagFromType f meta = Ok flag /\ flagValue flag = coercedDefault t literal) /\
  (In ty ["int"; "int64"; "uint"; "uint64"; "float32"; "float64"; "bool"] ->
   isSyntaxError (literalError t literal) = true ->
   coercedDefault t literal = zeroValue t) /\
  (ty = "time.Duration" ->
   literalError t literal <> None ->
   coercedDefault t literal = zeroValue t) /\
  (In ty ["int"; "int64"] ->
   isRangeError (literalError t literal) = true ->
   coercedDefault t literal = VInt (2 ^ 63 - 1) \/
   coercedDefault t literal = VInt (- 2 ^ 63)) /\
  (In ty ["uint"; "uint64"] ->
   isRangeError (literalError t literal) = true ->
   coercedDefault t literal = VUint (2 ^ 64 - 1)) /\
  (forall piece, isSyntaxError (snd (strconv.Atoi piece)) = true ->
                 fst (strconv.Atoi piece) = 0%Z) /\
  (forall cmdmeta v,
      snd (parseSection cmdmeta ("hidden:" ++ v)) = None <-> In v boolSpellings) /\
  (forall v,
      commaOutside false v = false ->
      (snd (parseMeta ("hidden:" ++ v)) = None <-> In v boolSpellings) /\
      (~ In v boolSpellings ->
       snd (parseMeta ("hidden:" ++ v))
       = Some (ErrWrap (syntaxError "ParseBool" v) hiddenWrapMessage))) /\
  ~ In "" boolSpellings.
Proof.
  cbn zeta. repeat split.
  - destruct (flagFromType_supported f meta Hsup) as [flag Hflag].
    exists flag. split; [exact Hflag | now apply flagFromType_value].
  - intros Hin. simpl in Hin.
    repeat (destruct Hin as [Hin|Hin]); try contradiction;
      unfold coercedDefault, literalError, zeroValue; rewrite <- Hin; eval_eqb;
      intros Herr; f_equal;
      first [ now apply ParseInt_syntax_zero
            | now apply ParseUint_syntax_zero
            | now apply HFloat
            | now apply ParseBool_syntax_false ].
  - intros Hty. unfold coercedDefault, literalError, zeroValue. rewrite Hty. eval_eqb.
    intros Herr. f_equal. now apply HDuration.
  - intros Hin. simpl in Hin.
    repeat (destruct Hin as [Hin|Hin]); try contradiction;
      unfold coercedDefault, literalError; rewrite <- Hin; eval_eqb;
      intros Herr; destruct (ParseInt_range_bound _ Herr) as [-> | ->]; auto.
  - intros Hin. simpl in Hin.
    repeat (destruct Hin as [Hin|Hin]); try contradiction;
      unfold coercedDefault, literalError; rewrite <- Hin; eval_eqb;
      intros Herr; now rewrite (ParseUint_range_bound _ Herr).
  - apply Atoi_syntax_zero.
  - rewrite parseSection_hidden. cbn [snd]. intros Hnone.
    apply ParseBool_ok_iff. destruct (snd (strconv.ParseBool v)); [discriminate|reflexivity].
  - intros Hin. rewrite parseSection_hidden. cbn [snd].
    apply ParseBool_ok_iff in Hin. now rewrite Hin.
  - rewrite (parseMeta_hidden v H). cbn [snd]. intros Hnone.
    apply ParseBool_ok_iff. destruct (snd (strconv.ParseBool v)); [discriminate|reflexivity].
  - intros Hin. rewrite (parseMeta_hidden v H). cbn [snd].
    apply ParseBool_ok_iff in Hin. now rewrite Hin.
  - intros Hnot. rewrite (parseMeta_hidden v H). cbn [snd].
    unfold strconv.ParseBool.
    destruct (existsb _ ["1"; "t"; "T"; "TRUE"; "true"; "True"]) eqn:E1.
    { exfalso. apply Hnot. apply ParseBool_ok_iff. unfold strconv.ParseBool.
      now rewrite E1. }
    destruct (existsb _ ["0"; "f"; "F"; "FALSE"; "false"; "False"]) eqn:E2.
    { exfalso. apply Hnot. apply ParseBool_ok_iff. unfold strconv.ParseBool.
      now rewrite E1, E2. }
    reflexivity.
  - simpl. intuition discriminate.
Qed.

End FlagSynthesis.

(** * The properties on the sample structs *)

Lemma serveObject_wellTagged :
  Forall wellTagged (map fst (obj_Fields serveObject)).
Proof.
  cbn [map fst obj_Fields serveObject].
  repeat (apply Forall_cons;
          [split; [reflexivity
                  | intros H; first [reflexivity | vm_compute in H; discriminate H]] |]).
  apply Forall_nil.
Defined.

Lemma Flags_roundtrip_witness :
  exists r,
    Flags (Some (GPtr (GStruct serveObject))) serveDefaults = Ok r /\
    FieldByName r "FlagPort" = Some (VInt 8080) /\
    FieldByName r "FlagHosts" = Some (VStringSlice ["a"; "b"]).
Proof.
  destruct (Flags_roundtrip (GPtr (GStruct serveObject)) serveObject serveDefaults)
    as [r [Hr Hfield]].
  - intros s. reflexivity.
  - reflexivity.
  - repeat constructor; simpl; intuition discriminate.
  - exact serveObject_wellTagged.
  - exists r. split; [exact Hr|]. split.
    + apply (Hfield (plainField "FlagPort" "int" "default:8080")
                    (mkMeta "" "" false "8080")
                    (IntFlag (mkFlag "port" "PORT" false "") 8080));
        first [ reflexivity | simpl; tauto ].
    + apply (Hfield (plainField "FlagHosts" "[]string" "default:'a,b'")
                    (mkMeta "" "" false "'a,b'")
                    (StringSliceFlag (mkFlag "hosts" "HOSTS" false "") (Some ["a"; "b"])));
        first [ reflexivity | simpl; tauto ].
Defined.

Lemma flag_names_shared_witness :
  map GetName (cmd_Flags serveCommand) = ["port"; "hosts"] /\
  map (fun fl => flag_EnvVar (fieldsOf fl)) (cmd_Flags serveCommand) = ["PORT"; "HOSTS"] /\
  exists r,
    Flags (Some (GStruct serveObject)) serveDefaults = Ok r /\
    FieldByName r "FlagPort" = Some (VInt 8080).
Proof.
  pose proof (flag_names_shared (GStruct serveObject) serveObject serveCommand
                serveDefaults serveDefaults eq_refl
                ltac:(repeat constructor; simpl; intuition discriminate)
                eq_refl) as H.
  cbn zeta in H. destruct H as (Hflagnames & Henv & _ & _ & [r [Hr Hread]] & _).
  split; [exact Hflagnames|]. split; [exact Henv|].
  exists r. split; [exact Hr|].
  destruct (Hread (plainField "FlagPort" "int" "default:8080")
                  (IntFlag (mkFlag "port" "PORT" false "") 8080))
    as [x [Hx Hfield]]; [simpl; tauto|].
  change (Some (VInt 8080) = Some x) in Hx.
  change (FieldByName r "FlagPort" = Some x) in Hfield.
  now rewrite Hfield, <- Hx.
Defined.

Lemma build_flattens_single_command_witness :
  build [Some (GStruct serveObject)]
  = Ok (mkApp "serve files" (Some "serve") (cmd_Flags serveCommand) []) /\
  build [Some (GStruct serveObject); Some (GStruct fetchObject)]
  = Ok (mkApp "A new cli application" (Some "helpCommand.Action") []
              [serveCommand; fetchCommand]).
Proof.
  split.
  - destruct (proj1 (build_flattens_single_command
                       [Some (GStruct serveObject)] [serveCommand]
                       ltac:(repeat constructor)) eq_refl)
      as [cmd [Hcmd Hbuild]].
    injection Hcmd as <-. exact Hbuild.
  - refine (proj1 (proj2 (build_flattens_single_command
                            [Some (GStruct serveObject); Some (GStruct fetchObject)]
                            [serveCommand; fetchCommand]
                            ltac:(repeat constructor)) _)).
    simpl. lia.
Defined.

Lemma exampleLibraries_ParseFloat_zero (s : string) (bits : Z) :
  isSyntaxError (snd (ParseFloat (Libraries := exampleLibraries) s bits)) = true ->
  fst (ParseFloat (Libraries := exampleLibraries) s bits) = 0%Z.
Proof.
  cbn [ParseFloat exampleLibraries]. intros H.
  apply withFunc_syntax in H. now apply ParseInt_kind_spec.
Qed.

Lemma exampleLibraries_ParseDuration_zero (s : string) :
  snd (ParseDuration (Libraries := exampleLibraries) s) <> None ->
  fst (ParseDuration (Libraries := exampleLibraries) s) = 0%Z.
Proof.
  cbn [ParseDuration exampleLibraries].
  destruct (snd (strconv.ParseInt_kind s 64)); [reflexivity|].
  intros H. now elim H.
Qed.

Lemma default_literal_never_fails_witness :
  exists flag,
    flagFromType (L := exampleLibraries)
                 (plainField "FlagWait" "time.Duration" "default:soon")
                 (mkMeta "" "" false "soon") = Ok flag /\
    flagValue flag = VInt 0.
Proof.
  destruct (default_literal_never_fails (L := exampleLibraries)
              (plainField "FlagWait" "time.Duration" "default:soon")
              (mkMeta "" "" false "soon")
              exampleLibraries_ParseFloat_zero exampleLibraries_ParseDuration_zero
              eq_refl)
    as [[flag [Hflag Hvalue]] [_ [Hduration _]]].
  exists flag. split; [exact Hflag|]. rewrite Hvalue.
  apply Hduration; [reflexivity|]. vm_compute. discriminate.
Defined.

Lemma unsupported_type_fails_witness :
  flagFromType (L := exampleLibraries) (plainField "FlagChan" "chan int" "") zeroMeta
  = Err (ErrNew "unsupported flag generator type: chan int") /\
  exists p, Flags (Some (GStruct (brokenObject "FlagChan"))) serveDefaults = Panic p.
Proof.
  pose proof (unsupported_type_fails (L := exampleLibraries)
                (plainField "FlagChan" "chan int" "") zeroMeta eq_refl eq_refl) as H.
  cbn zeta in H. destruct H as (Hflag & _ & _ & _ & _ & Hpanic & _).
  split; [exact Hflag|].
  apply (Hpanic _ (brokenObject "FlagChan")); [reflexivity | simpl; tauto].
Defined.

Lemma flag_error_wrapped_with_fixed_message_witness :
  commandFromObject (L := exampleLibraries) (Some (GStruct (brokenObject "FlagAlpha")))
  = Err (ErrWrap (unsupportedFlagType "chan int") flagWrapMessage).
Proof.
  refine (proj1 (flag_error_wrapped_with_fixed_message
                   (GStruct (brokenObject "FlagAlpha")) (brokenObject "FlagAlpha")
                   (commandField "") (VCommand zeroCommand) zeroCommand [] []
                   (plainField "FlagAlpha" "chan int" "") (VOther false "")
                   zeroMeta (unsupportedFlagType "chan int")
                   eq_refl _ eq_refl eq_refl _ eq_refl eq_refl eq_refl)).
  - discriminate.
  - constructor.
Defined.

Lemma Flags_leaves_other_fields_zero_witness :
  exists r,
    Flags (Some (GStruct serveObject)) serveDefaults = Ok r /\
    map fst (obj_Fields r) = map fst (obj_Fields serveObject) /\
    forall f x,
      In (f, x) (obj_Fields r) ->
      strings.HasPrefix (field_Name f) "Flag" = false ->
      x = zeroValue (field_Type f).
Proof.
  destruct (Flags_leaves_other_fields_zero (GStruct serveObject) serveObject
                                           serveDefaults eq_refl)
    as [Hzero Hreturns].
  destruct (Hreturns serveObject_wellTagged) as [r Hr].
  exists r. split; [exact Hr|].
  destruct (Hzero r Hr) as (_ & Hfields & Hother & _).
  split; [exact Hfields | exact Hother].
Defined.

(** C7, as the specification words it, fails on the code: an empty
    [hidden] value is a parse error, [hidden:1] is accepted although [1]
    is neither [true], [false] nor empty, an out-of-range integer default
    becomes the largest [int64] and not zero, and a list default that does
    not parse becomes a list holding a zero, not the nil list. *)
Lemma hidden_and_zero_rules_counterexample :
  parseMeta "hidden:"
  = (zeroMeta, Some (ErrWrap (syntaxError "ParseBool" "") hiddenWrapMessage)) /\
  parseMeta "hidden:1" = (mkMeta "" "" true "", None) /\
  (forall L : Libraries,
      @flagFromType L (plainField "FlagN" "int" "")
                    (mkMeta "" "" false "99999999999999999999")
      = Ok (IntFlag (@flagBase L (plainField "FlagN" "int" "")
                               (mkMeta "" "" false "99999999999999999999"))
                    9223372036854775807)) /\
  (forall L : Libraries,
      @flagFromType L (plainField "FlagL" "[]int" "") (mkMeta "" "" false "x")
      = Ok (IntSliceFlag (@flagBase L (plainField "FlagL" "[]int" "")
                                    (mkMeta "" "" false "x"))
                         (Some [0%Z]))).
Proof.
  repeat split; intros; reflexivity.
Qed.

(** C9, as the specification words it, fails on the code: the error that
    comes out of [commandFromObject] is the same whatever the offending
    field is called, and its text does not hold the field's name. *)
Lemma error_does_not_name_field_counterexample :
  let e := ErrWrap (unsupportedFlagType "chan int") flagWrapMessage in
  (forall L : Libraries,
      @commandFromObject L (Some (GStruct (brokenObject "FlagAlpha"))) = Err e /\
      @commandFromObject L (Some (GStruct (brokenObject "FlagBeta"))) = Err e) /\
  errorText e
  = "failed to generate flag from struct field: unsupported flag generator type: chan int" /\
  contains (errorText e) "FlagAlpha" = false /\
  contains (errorText e) "FlagBeta" = false.
Proof.
  cbn zeta. repeat split; intros; reflexivity.
Qed.

(** * Further properties of the tag parser *)

Lemma quotesOpen_app (a b : string) :
  forall q, quotesOpen q (a ++ b) = quotesOpen (quotesOpen q a) b.
Proof.
  induction a as [|c a IH]; intros q; simpl; [reflexivity | apply IH].
Qed.

Lemma commaOutside_app (a b : string) :
  forall q,
    commaOutside q (a ++ b) = commaOutside q a || commaOutside (quotesOpen q a) b.
Proof.
  induction a as [|c a IH]; intros q; simpl; [reflexivity|].
  destruct (Ascii.eqb c quoteChar); [apply IH|].
  rewrite IH. now rewrite orb_assoc.
Qed.


(** The sections the loop yields, given that the field collected so far
    was read from outside quotes and has no comma outside quotes. *)
Lemma sections_loop_invariant (s : string) :
  forall (q : bool) (cur : string),
    quotesOpen false cur = q ->
    commaOutside false cur = false ->
    Forall (fun sec => sec <> "" /\ commaOutside false sec = false)
           (strings.FieldsFunc_loop quoteSplit q cur s).
Proof.
  induction s as [|c s IH]; intros q cur Hq Hcur.
  - simpl. destruct cur; constructor; [|constructor]. split; [discriminate | exact Hcur].
  - cbn [strings.FieldsFunc_loop]. rewrite quoteSplit_eq.
    destruct (Ascii.eqb c commaChar && _) eqn:Hsep.
    + apply andb_true_iff in Hsep. destruct Hsep as [Hc Hnq].
      rewrite (comma_not_quote c Hc) in *. apply negb_true_iff in Hnq. subst q.
      rewrite Hnq in *.
      destruct cur as [|d cur].
      * apply IH; reflexivity.
      * constructor; [split; [discriminate | exact Hcur]|]. apply IH; reflexivity.
    + apply IH.
      * rewrite quotesOpen_app, Hq. reflexivity.
      * rewrite commaOutside_app, Hcur, Hq. cbn [orb commaOutside].
        destruct (Ascii.eqb c quoteChar); [reflexivity|].
        rewrite Hsep. reflexivity.
Qed.

(** X1.  The sections [parseMeta] works on are never empty and hold no
    comma outside quotes: empty segments of a tag are dropped before the
    [key:value] test, and splitting a section again gives it back. *)
Theorem sections_are_whole (s : string) :
  Forall (fun sec => sec <> "" /\ commaOutside false sec = false /\ sections sec = [sec])
         (sections s).
Proof.
  pose proof (sections_loop_invariant s false "" eq_refl eq_refl) as H.
  unfold sections, strings.FieldsFunc at 1.
  eapply Forall_impl; [|exact H].
  intros sec [Hne Hc]. repeat split; try assumption.
  now apply sections_whole.
Qed.

Lemma parseMeta_loop_app (l1 l2 : list string) :
  forall m,
    parseMeta_loop m (l1 ++ l2)%list =
    match parseMeta_loop m l1 with
    | (m', Some e) => (m', Some e)
    | (m', None) => parseMeta_loop m' l2
    end.
Proof.
  induction l1 as [|sec l1 IH]; intros m; simpl; [reflexivity|].
  destruct (parseSection m sec) as [m' [e|]]; [reflexivity | apply IH].
Qed.

(** X2.  A comma that follows closed quotes composes two tags: the part
    before it is parsed first, an error there ends the parse with the
    metadata read so far and the part after it is not looked at;
    otherwise the part after it is parsed on top of that metadata.  A
    leading and a trailing comma change nothing. *)
Theorem parseMeta_composes (a b : string)
        (Hbalanced : quotesOpen false a = false) :
  parseMeta (a ++ "," ++ b) =
  match parseMeta a with
  | (m, Some e) => (m, Some e)
  | (m, None) => parseMeta_loop m (sections b)
  end /\
  parseMeta (a ++ ",") = parseMeta a /\
  parseMeta ("," ++ b) = parseMeta b.
Proof.
  assert (forall x y, quotesOpen false x = false ->
                      parseMeta (x ++ "," ++ y) =
                      match parseMeta x with
                      | (m, Some e) => (m, Some e)
                      | (m, None) => parseMeta_loop m (sections y)
                      end) as Hgen.
  { intros x y Hx. unfold parseMeta.
    change ("," ++ y) with (String commaChar y).
    rewrite (sections_comma x y Hx). apply parseMeta_loop_app. }
  split; [|split].
  - apply Hgen, Hbalanced.
  - change (a ++ ",") with (a ++ "," ++ ""). rewrite (Hgen a "" Hbalanced).
    destruct (parseMeta a) as [m [e|]]; reflexivity.
  - reflexivity.
Qed.

Lemma parseMeta_composes_witness :
  parseMeta "hidden:maybe,name:x"
  = (zeroMeta, Some (ErrWrap (syntaxError "ParseBool" "maybe") hiddenWrapMessage)).
Proof.
  exact (proj1 (parseMeta_composes "hidden:maybe" "name:x" eq_refl)).
Defined.



Lemma Cut_none (s : string) (sep : ascii) :
  countChar sep s = O -> strings.Cut s sep = None.
Proof.
  induction s as [|c s IH]; simpl; [reflexivity|].
  destruct (Ascii.eqb c sep); [discriminate|]. intros H. now rewrite IH.
Qed.

Lemma Cut_first (k v : string) (sep : ascii) :
  countChar sep k = O -> strings.Cut (k ++ String sep v) sep = Some (k, v).
Proof.
  induction k as [|c k IH]; simpl.
  - intros _. now rewrite Ascii.eqb_refl.
  - destruct (Ascii.eqb c sep); [discriminate|]. intros H. now rewrite IH.
Qed.

Lemma SplitN_key_value (k v : string) :
  countChar colonChar k = O ->
  strings.SplitN (k ++ ":" ++ v) colonChar 2 = [k; v].
Proof.
  intros H. cbn [strings.SplitN]. change (":" ++ v) with (String colonChar v).
  now rewrite Cut_first.
Qed.

(** The three keys that cannot fail, for any value. *)
Lemma parseSection_by_key_aux (cmdmeta : commandMetadata) (v : string) :
  parseSection cmdmeta ("name:" ++ v)
  = (mkMeta v (meta_Usage cmdmeta) (meta_Hidden cmdmeta) (meta_Default cmdmeta), None) /\
  parseSection cmdmeta ("usage:" ++ v)
  = (mkMeta (meta_Name cmdmeta) (strings.Trim v "'") (meta_Hidden cmdmeta)
            (meta_Default cmdmeta), None) /\
  parseSection cmdmeta ("default:" ++ v)
  = (mkMeta (meta_Name cmdmeta) (meta_Usage cmdmeta) (meta_Hidden cmdmeta) v, None).
Proof.
  split; [|split]; unfold parseSection.
  - change ("name:" ++ v) with ("name" ++ ":" ++ v).
    rewrite (SplitN_key_value "name" v eq_refl). reflexivity.
  - change ("usage:" ++ v) with ("usage" ++ ":" ++ v).
    rewrite (SplitN_key_value "usage" v eq_refl). reflexivity.
  - change ("default:" ++ v) with ("default" ++ ":" ++ v).
    rewrite (SplitN_key_value "default" v eq_refl). reflexivity.
Qed.

(** X4.  How one section is read.  Without a colon it is a malformed tag,
    reported with the section's text -- a bare key such as [hidden] is
    one.  Otherwise it is cut at its first colon only, so a value may
    hold colons.  [name] and [default] keep the value as written, quotes
    included; [usage] loses the quotes around it; each of the three
    leaves the other fields as they were.  Any other key that is not
    [hidden] is an unknown tag: keys are matched exactly, in lower case. *)
Theorem parseSection_by_key (cmdmeta : commandMetadata) (k v : string)
        (Hk : countChar colonChar k = O) :
  parseSection cmdmeta k = (cmdmeta, Some (ErrNew ("malformed tag: '" ++ k ++ "'"))) /\
  parseSection cmdmeta ("name:" ++ v)
  = (mkMeta v (meta_Usage cmdmeta) (meta_Hidden cmdmeta) (meta_Default cmdmeta), None) /\
  parseSection cmdmeta ("usage:" ++ v)
  = (mkMeta (meta_Name cmdmeta) (strings.Trim v "'") (meta_Hidden cmdmeta)
            (meta_Default cmdmeta), None) /\
  parseSection cmdmeta ("default:" ++ v)
  = (mkMeta (meta_Name cmdmeta) (meta_Usage cmdmeta) (meta_Hidden cmdmeta) v, None) /\
  (~ In k ["name"; "usage"; "hidden"; "default"] ->
   parseSection cmdmeta (k ++ ":" ++ v)
   = (cmdmeta, Some (ErrNew ("unknown command tag: '" ++ k ++ ":" ++ v ++ "'")))).
Proof.
  split; [|split; [|split; [|split]]].
  - unfold parseSection. cbn [strings.SplitN]. now rewrite (Cut_none k colonChar Hk).
  - apply parseSection_by_key_aux.
  - apply parseSection_by_key_aux.
  - apply parseSection_by_key_aux.
  - intros Hnot. unfold parseSection. rewrite (SplitN_key_value k v Hk).
    destruct (String.eqb_spec k "name"); [exfalso; apply Hnot; subst k; simpl; auto|].
    destruct (String.eqb_spec k "usage"); [exfalso; apply Hnot; subst k; simpl; auto|].
    destruct (String.eqb_spec k "hidden"); [exfalso; apply Hnot; subst k; simpl; auto|].
    destruct (String.eqb_spec k "default"); [exfalso; apply Hnot; subst k; simpl; auto 6|].
    reflexivity.
Qed.

Lemma parseSection_by_key_witness :
  parseSection zeroMeta "Name:x"
  = (zeroMeta, Some (ErrNew "unknown command tag: 'Name:x'")).
Proof.
  refine (proj2 (proj2 (proj2 (proj2
            (parseSection_by_key zeroMeta "Name" "x" eq_refl)))) _).
  simpl. intuition discriminate.
Defined.

(** X5.  A key may be given more than once and the last value stands:
    nothing of an earlier [name], [usage] or [default] is left once the
    key comes again, and a [hidden] that parses is replaced the same way. *)
Theorem later_key_overrides (cmdmeta : commandMetadata) (v1 v2 : string)
        (rest : list string) :
  parseMeta_loop cmdmeta (("name:" ++ v1) :: ("name:" ++ v2) :: rest)
  = parseMeta_loop cmdmeta (("name:" ++ v2) :: rest) /\
  parseMeta_loop cmdmeta (("usage:" ++ v1) :: ("usage:" ++ v2) :: rest)
  = parseMeta_loop cmdmeta (("usage:" ++ v2) :: rest) /\
  parseMeta_loop cmdmeta (("default:" ++ v1) :: ("default:" ++ v2) :: rest)
  = parseMeta_loop cmdmeta (("default:" ++ v2) :: rest) /\
  (In v1 boolSpellings ->
   parseMeta_loop cmdmeta (("hidden:" ++ v1) :: ("hidden:" ++ v2) :: rest)
   = parseMeta_loop cmdmeta (("hidden:" ++ v2) :: rest)).
Proof.
  pose proof (fun m v => proj1 (parseSection_by_key_aux m v)) as Hname.
  pose proof (fun m v => proj1 (proj2 (parseSection_by_key_aux m v))) as Husage.
  pose proof (fun m v => proj2 (proj2 (parseSection_by_key_aux m v))) as Hdefault.
  split; [|split; [|split]].
  - cbn [parseMeta_loop]. now rewrite !Hname.
  - cbn [parseMeta_loop]. now rewrite !Husage.
  - cbn [parseMeta_loop]. now rewrite !Hdefault.
  - intros Hin. apply ParseBool_ok_iff in Hin.
    cbn [parseMeta_loop]. rewrite !parseSection_hidden, Hin. reflexivity.
Qed.

(** * Further properties of the command synthesizer *)

Section CommandSynthesis.

Context {L : Libraries}.

(** X6.  [getCommand] accepts the first field exactly when it is called
    [Command], holds a [cli.Command] and has a tag that parses.  The
    command it returns keeps the name, description and action of the
    embedded value, but its usage is the tag's -- empty without a
    [usage:] key, whatever usage the embedded value had -- and its flags
    start empty.  A wrong field name is reported before the value and the
    tag are looked at, and a tag error comes back wrapped. *)
Theorem getCommand_accepts (f0 : StructField) (v0 : value) :
  (forall cmd,
      getCommand f0 v0 = Ok cmd <->
      exists c0 meta,
        field_Name f0 = "Command" /\ v0 = VCommand c0 /\
        parseMeta (field_Tag f0) = (meta, None) /\
        cmd = mkCommand (cmd_Name c0) (meta_Usage meta) (cmd_Description c0)
                        (cmd_Action c0) []) /\
  (field_Name f0 <> "Command" ->
   getCommand f0 v0 = Err (ErrNew "first field must be an embedded cli.Command")) /\
  (forall c0 meta e,
      field_Name f0 = "Command" -> v0 = VCommand c0 ->
      parseMeta (field_Tag f0) = (meta, Some e) ->
      getCommand f0 v0 = Err (ErrWrap e commandTagWrapMessage)) /\
  (forall p, getCommand f0 v0 <> Panic p).
Proof.
  split; [|split; [|split]].
  - intros cmd. split.
    + unfold getCommand.
      destruct (String.eqb_spec (field_Name f0) "Command") as [Hn|]; [|discriminate].
      cbn [negb]. destruct (kindIsStruct v0); [|discriminate]. cbn [negb].
      destruct v0; try discriminate.
      destruct (parseMeta (field_Tag f0)) as [meta [e|]] eqn:Hm; [discriminate|].
      intros [= <-]. eexists _, _.
      split; [exact Hn|]. split; [reflexivity|]. split; reflexivity.
    + intros (c0 & meta & Hn & -> & Hm & ->). unfold getCommand.
      rewrite Hn, Hm. reflexivity.
  - intros Hn. unfold getCommand.
    destruct (String.eqb_spec (field_Name f0) "Command"); [contradiction | reflexivity].
  - intros c0 meta e Hn -> Hm. unfold getCommand. rewrite Hn, Hm. reflexivity.
  - intros p. unfold getCommand.
    destruct (negb _); [discriminate|]. destruct (negb _); [discriminate|].
    destruct v0; try discriminate.
    destruct (parseMeta (field_Tag f0)) as [meta [e|]]; discriminate.
Qed.

(** X7.  The command made of a struct is named after the struct's type
    in lower case and has one flag per field called [Flag...], in the
    order of declaration and none for the other fields; each flag is the
    one [flagFromType] makes of the field and its parsed tag, so it shows
    the tag's usage and hidden mark and has the coerced default literal
    for default. *)
Theorem command_flags_in_declaration_order (v : GoValue) (o : Object) (cmd : Command)
        (Hderef : deref v = Some o)
        (Hcmd : commandFromObject (Some v) = Ok cmd) :
  let flagFields := filter eligible (map fst (tl (obj_Fields o))) in
  let meta f := fst (parseMeta (field_Tag f)) in
  cmd_Name cmd = strings.ToLower (obj_TypeName o) /\
  Forall2 (fun f flag => flagFromType f (meta f) = Ok flag) flagFields (cmd_Flags cmd) /\
  length (cmd_Flags cmd) = length flagFields /\
  map fieldsOf (cmd_Flags cmd) = map (fun f => flagBase f (meta f)) flagFields /\
  map flagValue (cmd_Flags cmd)
  = map (fun f => coercedDefault (field_Type f) (meta_Default (meta f))) flagFields.
Proof.
  cbn zeta.
  destruct (commandFromObject_ok v o cmd Hderef Hcmd)
    as (f0 & v0 & rest & c0 & Hfields & _ & _ & Hflags & Heq).
  rewrite Hfields. cbn [tl].
  destruct (commandFlags_Forall2 _ _ _ Hflags) as (new & Hnew & Hall).
  cbn [app] in Hnew. rewrite Hnew.
  split; [rewrite Heq; reflexivity|].
  split; [exact Hall|].
  split; [symmetry; exact (Forall2_length Hall)|].
  clear Hnew Hflags Heq. split.
  - induction Hall as [|f flag fs flags Hf _ IH]; [reflexivity|].
    cbn [map]. rewrite IH. f_equal. now apply flagFromType_fields.
  - induction Hall as [|f flag fs flags Hf _ IH]; [reflexivity|].
    cbn [map]. rewrite IH. f_equal. now apply flagFromType_value.
Qed.

(** X8.  [commandFromObject] returns a command exactly for a named struct
    (behind any number of non-nil pointers) whose first field
    [getCommand] accepts and whose other fields all have tags that parse
    and, where they are called [Flag...], a supported type. *)
Theorem commandFromObject_succeeds_iff (v : GoValue) :
  (exists cmd, commandFromObject (Some v) = Ok cmd) <->
  (exists o f0 v0 rest c0,
      deref v = Some o /\ obj_TypeName o <> "" /\
      obj_Fields o = (f0, v0) :: rest /\
      getCommand f0 v0 = Ok c0 /\
      Forall wellTagged (map fst rest)).
Proof.
  split.
  - intros [cmd Hcmd].
    destruct (deref v) as [o|] eqn:Hd.
    + destruct (commandFromObject_ok v o cmd Hd Hcmd)
        as (f0 & v0 & rest & c0 & Hfields & Hname & Hget & Hflags & _).
      exists o, f0, v0, rest, c0. repeat split; try assumption.
      now destruct (commandFlags_ok _ _ _ Hflags).
    + unfold commandFromObject in Hcmd. rewrite Hd in Hcmd. discriminate.
  - intros (o & f0 & v0 & rest & c0 & Hd & Hname & Hfields & Hget & Hw).
    unfold commandFromObject. rewrite Hd.
    destruct (String.eqb_spec (obj_TypeName o) "") as [|_]; [contradiction|].
    rewrite Hfields, Hget.
    destruct (commandFlags_total rest Hw (cmd_Flags c0)) as [flags ->].
    eexists. reflexivity.
Qed.

(** X9.  The faults of [commandFromObject], in the order it meets them.
    An anonymous struct is refused whatever its fields are; a named
    struct without fields makes [reflect] panic; an error of
    [getCommand] on the first field is returned as it is; and the first
    later field whose tag does not parse ends the synthesis with the
    parser's error, not wrapped, whether or not the field is a flag. *)
Theorem commandFromObject_first_fault (v : GoValue) (o : Object)
        (Hderef : deref v = Some o) :
  (obj_TypeName o = "" ->
   commandFromObject (Some v)
   = Err (ErrNew "need a named struct type to determine command name")) /\
  (obj_TypeName o <> "" -> obj_Fields o = [] ->
   commandFromObject (Some v) = Panic fieldIndexPanic) /\
  (forall f0 v0 rest e,
      obj_TypeName o <> "" -> obj_Fields o = (f0, v0) :: rest ->
      getCommand f0 v0 = Err e ->
      commandFromObject (Some v) = Err e) /\
  (forall f0 v0 c0 pre f x post meta e,
      obj_TypeName o <> "" ->
      obj_Fields o = ((f0, v0) :: pre ++ (f, x) :: post)%list ->
      getCommand f0 v0 = Ok c0 ->
      Forall wellTagged (map fst pre) ->
      parseMeta (field_Tag f) = (meta, Some e) ->
      commandFromObject (Some v) = Err e).
Proof.
  unfold commandFromObject. rewrite Hderef.
  split; [|split; [|split]].
  - intros ->. reflexivity.
  - intros Hname ->.
    destruct (String.eqb_spec (obj_TypeName o) ""); [contradiction | reflexivity].
  - intros f0 v0 rest e Hname -> Hget.
    destruct (String.eqb_spec (obj_TypeName o) ""); [contradiction|].
    now rewrite Hget.
  - intros f0 v0 c0 pre f x post meta e Hname -> Hget Hpre Hmeta.
    destruct (String.eqb_spec (obj_TypeName o) ""); [contradiction|].
    rewrite Hget, commandFlags_app.
    destruct (commandFlags_total pre Hpre (cmd_Flags c0)) as [flags ->].
    simpl. now rewrite Hmeta.
Qed.

(** * Further properties of the value extractor *)

(** X10.  [Flags] returns an instance exactly when it is given a struct,
    behind any number of non-nil pointers, all of whose tags parse and
    whose [Flag...] fields have supported types; otherwise it panics, it
    has no error to return.  Unlike [commandFromObject] it asks neither
    for a type name nor for a leading [Command] field, and a struct
    without fields gives an instance without fields. *)
Theorem Flags_returns_iff (obj : option GoValue) (c : Context) :
  ((exists r, Flags obj c = Ok r) <->
   (exists v o, obj = Some v /\ deref v = Some o /\
                Forall wellTagged (map fst (obj_Fields o)))) /\
  (forall e, Flags obj c <> Err e) /\
  (forall v o, obj = Some v -> deref v = Some o -> obj_Fields o = [] ->
               Flags obj c = Ok (mkObject (obj_TypeName o) [])).
Proof.
  split; [|split].
  - split.
    + intros [r Hr]. apply Flags_ok_inv in Hr.
      destruct Hr as (v & o & rv & -> & Hd & Hloop & _).
      exists v, o. repeat split; [exact Hd|].
      eapply flagsLoop_ok_wellTagged; eassumption.
    + intros (v & o & -> & Hd & Hw). rewrite (deref_Flags v o c Hd).
      destruct (flagsLoop_total c _ Hw (newStruct (obj_Fields o))) as [rv ->].
      eexists. reflexivity.
  - intros e. unfold Flags. destruct obj as [v|]; [|discriminate].
    destruct (deref v) as [o|]; [|discriminate].
    destruct (flagsLoop _ _ _) as [rv|e'|p] eqn:Hl; try discriminate.
    exfalso. exact (flagsLoop_no_Err _ _ _ _ Hl).
  - intros v o -> Hd Hnil. rewrite (deref_Flags v o c Hd), Hnil. reflexivity.
Qed.

(** X11.  What [Flags] puts in a field called [Flag...]: the answer of
    the context, at the kind of the field's type, to the flag name made
    of the field's name and the tag's [name:].  The default, usage and
    hidden mark of the tag play no part in it. *)
Theorem Flags_reads_context (v : GoValue) (o : Object) (c : Context)
        (Hderef : deref v = Some o)
        (Hnames : NoDup (map field_Name (map fst (obj_Fields o))))
        (Htags : Forall wellTagged (map fst (obj_Fields o))) :
  exists r,
    Flags (Some v) c = Ok r /\
    forall f,
      In f (map fst (obj_Fields o)) -> eligible f = true ->
      exists x,
        FieldByName r (field_Name f) = Some x /\
        readFlag (type_String (field_Type f)) c (fieldFlagName f) = Some x.
Proof.
  rewrite (deref_Flags v o c Hderef).
  destruct (flagsLoop_total c _ Htags (newStruct (obj_Fields o))) as [rv Hrv].
  rewrite Hrv. eexists. split; [reflexivity|].
  intros f Hin Hel. unfold FieldByName. cbn [obj_Fields].
  rewrite Forall_forall in Htags. destruct (Htags f Hin) as [Htag Hsup].
  destruct (parseMeta (field_Tag f)) as [meta err] eqn:Hmeta.
  cbn [snd] in Htag. subst err.
  destruct (flagFromType_supported f meta (Hsup Hel)) as [flag Hflag].
  assert (GetName flag = fieldFlagName f) as Hname.
  { unfold GetName, fieldFlagName.
    rewrite (flagFromType_fields f meta flag Hflag), Hmeta. reflexivity. }
  rewrite (flagsLoop_lookup c _ Hnames _ _ Hrv) with (meta := meta) (flag := flag);
    try assumption.
  - rewrite Hname.
    destruct (readFlag_supported (field_Type f) c (fieldFlagName f) (Hsup Hel)) as [x Hx].
    exists x. split; exact Hx.
  - rewrite newStruct_fst. apply incl_refl.
Qed.

(** X12.  [Flags] parses the tag of every field, the first one and those
    that are not flags included, before it looks at the field's name: the
    first tag that does not parse makes it panic with the parser's
    error, not wrapped, and the fields after it are not reached. *)
Theorem Flags_first_bad_tag (v : GoValue) (o : Object) (c : Context)
        (pre post : list StructField) (f : StructField)
        (meta : commandMetadata) (e : error)
        (Hderef : deref v = Some o)
        (Hfields : map fst (obj_Fields o) = (pre ++ f :: post)%list)
        (Hpre : Forall wellTagged pre)
        (Hmeta : parseMeta (field_Tag f) = (meta, Some e)) :
  Flags (Some v) c = Panic (PanicErr e).
Proof.
  rewrite (deref_Flags v o c Hderef), Hfields, flagsLoop_app.
  destruct (flagsLoop_total c pre Hpre (newStruct (obj_Fields o))) as [rv ->].
  simpl. now rewrite Hmeta.
Qed.

(** * Further properties of the application builder *)

Lemma buildCommands_app (pre rest : list (option GoValue)) :
  forall acc,
    buildCommands (pre ++ rest)%list acc =
    match buildCommands pre acc with
    | Ok acc' => buildCommands rest acc'
    | other => other
    end.
Proof.
  induction pre as [|obj pre IH]; intros acc; simpl; [reflexivity|].
  destruct (commandFromObject obj); [apply IH | reflexivity | reflexivity].
Qed.

Lemma buildCommands_ok (objs : list (option GoValue)) :
  forall acc r,
    buildCommands objs acc = Ok r ->
    exists cmds,
      r = (acc ++ cmds)%list /\
      Forall2 (fun obj cmd => commandFromObject obj = Ok cmd) objs cmds.
Proof.
  induction objs as [|obj objs IH]; intros acc r H; simpl in H.
  - injection H as <-. exists []. split; [now rewrite app_nil_r | constructor].
  - destruct (commandFromObject obj) as [cmd| |] eqn:Hc; try discriminate.
    destruct (IH _ _ H) as (cmds & -> & Hall).
    exists (cmd :: cmds). split; [now rewrite <- app_assoc|].
    constructor; assumption.
Qed.

(** X13.  [build] is fail-fast: the first object that [commandFromObject]
    refuses ends it with that object's error, unchanged, whatever comes
    after it, and [Build] turns that error into a panic carrying it; a
    panic of [commandFromObject] passes through both. *)
Theorem build_stops_at_first_failure
        (pre post : list (option GoValue)) (cmds : list Command) (obj : option GoValue)
        (Hpre : Forall2 (fun obj cmd => commandFromObject obj = Ok cmd) pre cmds) :
  (forall e,
      commandFromObject obj = Err e ->
      build (pre ++ obj :: post) = Err e /\
      Build (pre ++ obj :: post) = Panic (PanicErr e)) /\
  (forall p,
      commandFromObject obj = Panic p ->
      build (pre ++ obj :: post) = Panic p /\
      Build (pre ++ obj :: post) = Panic p).
Proof.
  pose proof (buildCommands_Forall2 pre cmds Hpre []) as Hb.
  split.
  - intros e He.
    assert (build (pre ++ obj :: post) = Err e) as H.
    { unfold build. rewrite buildCommands_app, Hb. simpl. now rewrite He. }
    split; [exact H|]. unfold Build. now rewrite H.
  - intros p Hp.
    assert (build (pre ++ obj :: post) = Panic p) as H.
    { unfold build. rewrite buildCommands_app, Hb. simpl. now rewrite Hp. }
    split; [exact H|]. unfold Build. now rewrite H.
Qed.

(** X14.  [build] returns an application exactly when every object gives
    a command, and the application is then determined by the commands:
    flattened for one command, and otherwise -- for none as well as for
    several -- the new application with the commands attached and no
    flags.  [Build] returns the same application and never an error. *)
Theorem build_returns_iff (objs : list (option GoValue)) (application : App) :
  (build objs = Ok application <->
   exists cmds,
     Forall2 (fun obj cmd => commandFromObject obj = Ok cmd) objs cmds /\
     application = match cmds with
           | [cmd] => mkApp (cmd_Usage cmd) (cmd_Action cmd) (cmd_Flags cmd) []
           | _ => mkApp (app_Usage NewApp) (app_Action NewApp) [] cmds
           end) /\
  (Build objs = Ok application <-> build objs = Ok application) /\
  (forall e, Build objs <> Err e).
Proof.
  split; [|split].
  - split.
    + unfold build. destruct (buildCommands objs []) as [r| |] eqn:Hb; try discriminate.
      destruct (buildCommands_ok _ _ _ Hb) as (cmds & -> & Hall). cbn [List.app].
      intros H. exists cmds. split; [exact Hall|].
      destruct cmds as [|cmd [|cmd' cmds]]; now injection H as <-.
    + intros (cmds & Hall & ->). unfold build.
      rewrite (buildCommands_Forall2 objs cmds Hall []). cbn [List.app].
      destruct cmds as [|cmd [|cmd' cmds]]; reflexivity.
  - unfold Build. destruct (build objs); split; intros H; try discriminate; exact H.
  - intros e. unfold Build. destruct (build objs); discriminate.
Qed.

(** * Further properties of the flag synthesizer *)

Lemma isDigit_val (c : ascii) :
  strconv.isDigit c = true -> (0 <= strconv.digitVal c <= 9)%Z.
Proof.
  unfold strconv.isDigit, strconv.digitVal. intros H.
  apply andb_true_iff in H. destruct H as [H1 H2].
  apply Nat.leb_le in H1. apply Nat.leb_le in H2. lia.
Qed.

Lemma isDigit_not_quote (c : ascii) :
  strconv.isDigit c = true -> strings.inCutset c "'" = false.
Proof.
  intros H. cbn [strings.inCutset]. rewrite orb_false_r.
  destruct (Ascii.eqb_spec c "'") as [->|]; [discriminate H | reflexivity].
Qed.

Lemma isDigit_not_sign (c : ascii) :
  strconv.isDigit c = true -> Ascii.eqb c "+" = false /\ Ascii.eqb c "-" = false.
Proof.
  intros H. split.
  - destruct (Ascii.eqb_spec c "+") as [->|]; [discriminate H | reflexivity].
  - destruct (Ascii.eqb_spec c "-") as [->|]; [discriminate H | reflexivity].
Qed.

Lemma decimalFrom_ge (s : string) :
  allDigits s = true -> forall n, (0 <= n)%Z -> (n <= decimalFrom n s)%Z.
Proof.
  induction s as [|c s IH]; intros Hall n Hn; simpl; [lia|].
  simpl in Hall. apply andb_true_iff in Hall. destruct Hall as [Hc Hs].
  pose proof (isDigit_val c Hc).
  specialize (IH Hs (n * 10 + strconv.digitVal c)%Z ltac:(lia)). lia.
Qed.

(** On digits the loop of [ParseUint] computes the number written, and
    stops at the largest value when the number exceeds it. *)
Lemma ParseUint_loop_digits (s : string) :
  allDigits s = true ->
  forall n,
    (0 <= n <= 2 ^ 64 - 1)%Z ->
    strconv.ParseUint_loop (2 ^ 64 - 1) n s =
    (Z.min (decimalFrom n s) (2 ^ 64 - 1),
     if (decimalFrom n s <=? 2 ^ 64 - 1)%Z then None else Some ErrRange).
Proof.
  induction s as [|c s IH]; intros Hall n Hn.
  - cbn [strconv.ParseUint_loop decimalFrom]. rewrite Z.min_l by lia.
    destruct (Z.leb_spec n (2 ^ 64 - 1)); [reflexivity | lia].
  - simpl in Hall. apply andb_true_iff in Hall. destruct Hall as [Hc Hs].
    pose proof (isDigit_val c Hc) as Hd.
    cbn [strconv.ParseUint_loop decimalFrom]. rewrite Hc. cbn zeta.
    change (strconv.maxUint64 / 10 + 1)%Z with 1844674407370955162%Z.
    pose proof (decimalFrom_ge s Hs (n * 10 + strconv.digitVal c)%Z ltac:(lia)) as Hge.
    destruct (Z.leb_spec 1844674407370955162 n) as [Hcut|Hcut].
    + rewrite Z.min_r by lia.
      destruct (Z.leb_spec (decimalFrom (n * 10 + strconv.digitVal c) s) (2 ^ 64 - 1));
        [lia | reflexivity].
    + rewrite (Z.mod_small (n * 10)) by lia.
      destruct (Z_lt_le_dec (n * 10 + strconv.digitVal c) (2 ^ 64)) as [Hfit|Hover].
      * rewrite (Z.mod_small (n * 10 + strconv.digitVal c)) by lia.
        destruct (Z.ltb_spec (n * 10 + strconv.digitVal c) (n * 10)); [lia|].
        destruct (Z.ltb_spec (2 ^ 64 - 1) (n * 10 + strconv.digitVal c)); [lia|].
        cbn [orb]. apply IH; [exact Hs | lia].
      * replace ((n * 10 + strconv.digitVal c) mod 2 ^ 64)%Z
          with (n * 10 + strconv.digitVal c - 2 ^ 64)%Z.
        2:{ replace (n * 10 + strconv.digitVal c)%Z
              with ((n * 10 + strconv.digitVal c - 2 ^ 64) + 1 * 2 ^ 64)%Z at 2 by lia.
            rewrite Z_mod_plus_full. symmetry. apply Z.mod_small. lia. }
        destruct (Z.ltb_spec (n * 10 + strconv.digitVal c - 2 ^ 64) (n * 10)); [|lia].
        cbn [orb]. rewrite Z.min_r by lia.
        destruct (Z.leb_spec (decimalFrom (n * 10 + strconv.digitVal c) s) (2 ^ 64 - 1));
          [lia | reflexivity].
Qed.

Lemma decimalValue_nonneg (s : string) : allDigits s = true -> (0 <= decimalValue s)%Z.
Proof. intros H. apply (decimalFrom_ge s H 0%Z). lia. Qed.

Lemma ParseUint_kind_digits (s : string) :
  s <> "" -> allDigits s = true ->
  strconv.ParseUint_kind s 64 =
  (Z.min (decimalValue s) (2 ^ 64 - 1),
   if (decimalValue s <=? 2 ^ 64 - 1)%Z then None else Some ErrRange).
Proof.
  intros Hne Hall. unfold strconv.ParseUint_kind. destruct s; [contradiction|].
  change (if (64 =? 0)%Z then strconv.intSize else 64%Z) with 64%Z.
  apply (ParseUint_loop_digits _ Hall 0%Z). lia.
Qed.

Lemma ParseUint_digits (s : string) :
  s <> "" -> allDigits s = true ->
  fst (strconv.ParseUint s 64) = Z.min (decimalValue s) (2 ^ 64 - 1).
Proof.
  intros Hne Hall. unfold strconv.ParseUint, strconv.withFunc. cbn [fst].
  now rewrite ParseUint_kind_digits.
Qed.

Lemma ParseInt_digits (s : string) :
  s <> "" -> allDigits s = true ->
  fst (strconv.ParseInt s 64) = Z.min (decimalValue s) (2 ^ 63 - 1).
Proof.
  intros Hne Hall. pose proof (decimalValue_nonneg s Hall) as Hpos.
  unfold strconv.ParseInt, strconv.withFunc. cbn [fst].
  unfold strconv.ParseInt_kind. destruct s as [|c r] eqn:Es; [contradiction|].
  rewrite <- Es in *.
  assert (strconv.isDigit c = true) as Hc.
  { rewrite Es in Hall. simpl in Hall. now apply andb_true_iff in Hall. }
  destruct (isDigit_not_sign c Hc) as [-> ->]. cbn [orb negb andb]. cbv zeta.
  rewrite Es at 1. rewrite <- Es.
  rewrite (ParseUint_kind_digits s Hne Hall).
  change (if (64 =? 0)%Z then strconv.intSize else 64%Z) with 64%Z.
  change (64 - 1)%Z with 63%Z.
  destruct (Z.leb_spec (decimalValue s) (2 ^ 64 - 1));
    destruct (Z.leb_spec (2 ^ 63) (Z.min (decimalValue s) (2 ^ 64 - 1)));
    cbn [fst]; lia.
Qed.

Lemma ParseInt_negative_digits (s : string) :
  s <> "" -> allDigits s = true ->
  fst (strconv.ParseInt (String "-" s) 64) = Z.max (- decimalValue s) (- 2 ^ 63).
Proof.
  intros Hne Hall. pose proof (decimalValue_nonneg s Hall) as Hpos.
  unfold strconv.ParseInt, strconv.withFunc. cbn [fst].
  unfold strconv.ParseInt_kind.
  change (Ascii.eqb "-" "-") with true. change (Ascii.eqb "-" "+") with false.
  cbn [orb negb andb]. cbv zeta.
  rewrite (ParseUint_kind_digits s Hne Hall).
  change (if (64 =? 0)%Z then strconv.intSize else 64%Z) with 64%Z.
  change (64 - 1)%Z with 63%Z.
  destruct (Z.leb_spec (decimalValue s) (2 ^ 64 - 1));
    destruct (Z.ltb_spec (2 ^ 63) (Z.min (decimalValue s) (2 ^ 64 - 1)));
    cbn [fst]; lia.
Qed.

Lemma TrimRight_digits (s : string) :
  allDigits s = true -> strings.TrimRight s "'" = s.
Proof.
  induction s as [|c s IH]; intros Hall; [reflexivity|].
  simpl in Hall. apply andb_true_iff in Hall. destruct Hall as [Hc Hs].
  cbn [strings.TrimRight]. rewrite (IH Hs), (isDigit_not_quote c Hc).
  destruct s; reflexivity.
Qed.

Lemma Trim_digits (s : string) : allDigits s = true -> strings.Trim s "'" = s.
Proof.
  intros Hall. unfold strings.Trim.
  assert (strings.TrimLeft s "'" = s) as ->.
  { destruct s as [|c s]; [reflexivity|]. simpl in Hall.
    apply andb_true_iff in Hall. destruct Hall as [Hc _].
    cbn [strings.TrimLeft]. now rewrite (isDigit_not_quote c Hc). }
  now apply TrimRight_digits.
Qed.

Lemma Trim_negative_digits (s : string) :
  s <> "" -> allDigits s = true -> strings.Trim (String "-" s) "'" = String "-" s.
Proof.
  intros Hne Hall. unfold strings.Trim.
  change (strings.TrimLeft (String "-" s) "'") with (String "-" s).
  cbn [strings.TrimRight]. rewrite (TrimRight_digits s Hall).
  destruct s; [contradiction | reflexivity].
Qed.

(** X15.  An integer default is the number its literal writes, clamped
    to the range of the field's type and never wrapped around: for a
    literal of decimal digits an [int] or [int64] flag gets the number
    or, beyond it, the largest [int64]; with a minus sign the negated
    number or, below it, the smallest [int64]; a [uint] or [uint64] flag
    gets the number or, beyond it, the largest [uint64], and zero for a
    literal with a minus sign. *)
Theorem integer_default_clamped (name tag n u : string) (isStruct h : bool)
        (digits : string)
        (Hne : digits <> "")
        (Hdigits : allDigits digits = true) :
  let N := decimalValue digits in
  let field ty := mkField name (mkType ty isStruct) tag in
  let base := mkFlag (flagName name n) (envName (flagName name n)) h u in
  flagFromType (field "int") (mkMeta n u h digits)
  = Ok (IntFlag base (Z.min N (2 ^ 63 - 1))) /\
  flagFromType (field "int") (mkMeta n u h ("-" ++ digits))
  = Ok (IntFlag base (Z.max (- N) (- 2 ^ 63))) /\
  flagFromType (field "int64") (mkMeta n u h digits)
  = Ok (Int64Flag base (Z.min N (2 ^ 63 - 1))) /\
  flagFromType (field "int64") (mkMeta n u h ("-" ++ digits))
  = Ok (Int64Flag base (Z.max (- N) (- 2 ^ 63))) /\
  flagFromType (field "uint") (mkMeta n u h digits)
  = Ok (UintFlag base (Z.min N (2 ^ 64 - 1))) /\
  flagFromType (field "uint64") (mkMeta n u h digits)
  = Ok (Uint64Flag base (Z.min N (2 ^ 64 - 1))) /\
  flagFromType (field "uint") (mkMeta n u h ("-" ++ digits)) = Ok (UintFlag base 0) /\
  flagFromType (field "uint64") (mkMeta n u h ("-" ++ digits)) = Ok (Uint64Flag base 0).
Proof.
  cbn zeta. change ("-" ++ digits) with (String "-" digits).
  unfold flagFromType.
  cbn [field_Name field_Type type_String meta_Name meta_Usage meta_Hidden meta_Default].
  rewrite (Trim_digits digits Hdigits), (Trim_negative_digits digits Hne Hdigits).
  eval_eqb.
  rewrite !int_id by apply ParseInt_range.
  rewrite !uint_id by apply ParseUint_range.
  rewrite (ParseInt_digits digits Hne Hdigits).
  rewrite (ParseInt_negative_digits digits Hne Hdigits).
  rewrite (ParseUint_digits digits Hne Hdigits).
  repeat split.
Qed.

(** X16.  The default of a slice flag is nil or a list of at least one
    element, never an empty list: it is nil exactly when the default
    literal, quotes trimmed, is empty, and otherwise has one element more
    than the literal has commas. *)
Theorem slice_default_nil_or_nonempty (f : StructField) (meta : commandMetadata)
        (flag : Flag)
        (Hlist : In (type_String (field_Type f)) ["[]int"; "[]int64"; "[]string"])
        (Hflag : flagFromType f meta = Ok flag) :
  sliceDefaultLength flag =
  if String.eqb (trimmedDefault meta) "" then None
  else Some (S (countChar commaChar (trimmedDefault meta))).
Proof.
  revert Hflag. unfold trimmedDefault. simpl in Hlist.
  repeat (destruct Hlist as [Hlist|Hlist]); try contradiction;
    unfold flagFromType; rewrite <- Hlist; eval_eqb;
    intros <-%Ok_inj; cbn [sliceDefaultLength];
    destruct (String.eqb _ ""); cbn [negb sliceDefaultLength]; try reflexivity;
    now rewrite ?length_map, Split_length.
Qed.

Lemma TrimRight_snoc (s cutset : string) (c : ascii) :
  strings.inCutset c cutset = true ->
  strings.TrimRight (s ++ String c "") cutset = strings.TrimRight s cutset.
Proof.
  intros Hc. induction s as [|d s IH]; simpl.
  - now rewrite Hc.
  - now rewrite IH.
Qed.

Lemma TrimLeft_snoc (s cutset : string) (c : ascii) :
  strings.inCutset c cutset = true ->
  strings.TrimLeft (s ++ String c "") cutset =
  match strings.TrimLeft s cutset with
  | EmptyString => EmptyString
  | t => t ++ String c ""
  end.
Proof.
  intros Hc. induction s as [|d s IH]; simpl.
  - now rewrite Hc.
  - destruct (strings.inCutset d cutset); [exact IH | reflexivity].
Qed.

Lemma Trim_wrapped (s cutset : string) (c : ascii) :
  strings.inCutset c cutset = true ->
  strings.Trim (String c (s ++ String c "")) cutset = strings.Trim s cutset.
Proof.
  intros Hc. unfold strings.Trim. cbn [strings.TrimLeft]. rewrite Hc.
  rewrite (TrimLeft_snoc s cutset c Hc).
  destruct (strings.TrimLeft s cutset) as [|d t] eqn:E; [reflexivity|].
  now rewrite (TrimRight_snoc (String d t) cutset c Hc).
Qed.

(** X17.  Single quotes around a default are not part of it: a default
    written between quotes gives the same flag, or the same error, as
    the default written bare, for a field of any type. *)
Theorem quoted_default_is_bare_default (f : StructField) (n u d : string) (h : bool) :
  flagFromType f (mkMeta n u h ("'" ++ d ++ "'")) = flagFromType f (mkMeta n u h d).
Proof.
  unfold flagFromType. cbn [meta_Default meta_Name meta_Hidden meta_Usage].
  change ("'" ++ d ++ "'") with (String quoteChar (d ++ String quoteChar "")).
  now rewrite (Trim_wrapped d "'" quoteChar eq_refl).
Qed.

(** X18.  [genericSliceOf] returns a slice with the elements of its
    argument in the same order: appending one element to the argument
    appends it to the result, and nothing is dropped or repeated. *)
Theorem genericSliceOf_copies {A : Type} (slice : list A) (x : A) :
  genericSliceOf slice = slice /\
  genericSliceOf (slice ++ [x])%list = (genericSliceOf slice ++ [x])%list /\
  length (genericSliceOf slice) = length slice.
Proof.
  rewrite !genericSliceOf_id. repeat split.
Qed.

(** X19.  Flag names are not checked for clashes: a struct with two flag
    fields that their tags rename to the same name is accepted, and the
    command has two flags of that one name. *)
Theorem duplicate_flag_names_accepted
        (typeName n1 n2 override : string) (t1 t2 : rtype)
        (Htype : typeName <> "")
        (Hn1 : strings.HasPrefix n1 "Flag" = true)
        (Hn2 : strings.HasPrefix n2 "Flag" = true)
        (Ht1 : supported t1 = true)
        (Ht2 : supported t2 = true)
        (Hover : override <> "")
        (Hcomma : commaOutside false override = false) :
  exists cmd,
    commandFromObject (Some (GStruct (twinObject typeName n1 n2 override t1 t2))) = Ok cmd /\
    map GetName (cmd_Flags cmd) = [ToKebab override; ToKebab override].
Proof.
  assert (parseMeta ("name:" ++ override) = (mkMeta override "" false "", None)) as Hmeta.
  { unfold parseMeta. rewrite sections_whole; [|discriminate|exact Hcomma].
    cbn [parseMeta_loop]. now rewrite (proj1 (parseSection_by_key_aux zeroMeta override)). }
  set (f1 := mkField n1 t1 ("name:" ++ override)).
  set (f2 := mkField n2 t2 ("name:" ++ override)).
  set (meta := mkMeta override "" false "").
  destruct (flagFromType_supported f1 meta Ht1) as [flag1 Hflag1].
  destruct (flagFromType_supported f2 meta Ht2) as [flag2 Hflag2].
  assert (forall n, flagName n override = ToKebab override) as Hname.
  { intros n. unfold flagName.
    destruct (String.eqb_spec override ""); [contradiction | reflexivity]. }
  exists (mkCommand (strings.ToLower typeName) "" "" None [flag1; flag2]). split.
  - unfold commandFromObject, twinObject. cbn [deref obj_TypeName obj_Fields].
    destruct (String.eqb_spec typeName ""); [contradiction|].
    change (getCommand (commandField "") (VCommand zeroCommand)) with (Ok zeroCommand).
    cbn [cmd_Flags zeroCommand commandFlags field_Tag].
    fold f1 f2. rewrite Hmeta. fold meta.
    assert (eligible f1 = true) as -> by exact Hn1.
    assert (eligible f2 = true) as -> by exact Hn2.
    rewrite Hflag1, Hflag2. reflexivity.
  - cbn [cmd_Flags map]. unfold GetName.
    rewrite (flagFromType_fields f1 meta flag1 Hflag1).
    rewrite (flagFromType_fields f2 meta flag2 Hflag2).
    cbn. now rewrite !Hname.
Qed.

End CommandSynthesis.

(** * The further properties on the sample structs *)

Lemma portField_wellTagged :
  Forall wellTagged
         (map fst [(plainField "FlagPort" "int" "default:8080", @VInt exampleLibraries 0)]).
Proof.
  apply Forall_cons; [split; [reflexivity | intros _; reflexivity] | apply Forall_nil].
Defined.

Lemma command_flags_in_declaration_order_witness :
  map flagValue (cmd_Flags serveCommand) = [VInt 8080; VStringSlice ["a"; "b"]] /\
  length (cmd_Flags serveCommand) = 2%nat.
Proof.
  pose proof (command_flags_in_declaration_order
                (GStruct serveObject) serveObject serveCommand eq_refl eq_refl) as H.
  cbn zeta in H. destruct H as (_ & _ & Hlen & _ & Hvalues).
  split; [exact Hvalues | exact Hlen].
Defined.

Lemma commandFromObject_first_fault_witness :
  commandFromObject (Some (GStruct badTagObject))
  = Err (ErrNew "unknown command tag: 'json:note'").
Proof.
  refine (proj2 (proj2 (proj2 (commandFromObject_first_fault
                                 (GStruct badTagObject) badTagObject eq_refl)))
                (commandField "usage:'serve files'") (VCommand zeroCommand)
                (mkCommand "" "serve files" "" None [])
                [(plainField "FlagPort" "int" "default:8080", VInt 0)]
                (plainField "Note" "string" "json:note") (VString "")
                [(plainField "FlagLast" "chan int" "", VOther false "")]
                zeroMeta _ _ eq_refl eq_refl portField_wellTagged eq_refl).
  discriminate.
Defined.

Lemma Flags_reads_context_witness :
  exists r,
    Flags (Some (GStruct serveObject)) (constContext 7 true "z") = Ok r /\
    FieldByName r "FlagPort" = Some (VInt 7) /\
    FieldByName r "FlagHosts" = Some (VStringSlice ["z"]).
Proof.
  destruct (Flags_reads_context (GStruct serveObject) serveObject
                                (constContext 7 true "z") eq_refl)
    as [r [Hr Hfield]].
  - repeat constructor; simpl; intuition discriminate.
  - exact serveObject_wellTagged.
  - exists r. split; [exact Hr|]. split.
    + destruct (Hfield (plainField "FlagPort" "int" "default:8080"))
        as [x [Hx Hread]]; [simpl; tauto | reflexivity |].
      change (FieldByName r "FlagPort" = Some x) in Hx.
      change (Some (VInt 7) = Some x) in Hread. now rewrite Hx, <- Hread.
    + destruct (Hfield (plainField "FlagHosts" "[]string" "default:'a,b'"))
        as [x [Hx Hread]]; [simpl; tauto | reflexivity |].
      change (FieldByName r "FlagHosts" = Some x) in Hx.
      change (Some (VStringSlice ["z"]) = Some x) in Hread. now rewrite Hx, <- Hread.
Defined.

Lemma Flags_first_bad_tag_witness :
  Flags (Some (GStruct badTagObject)) serveDefaults
  = Panic (PanicErr (ErrNew "unknown command tag: 'json:note'")).
Proof.
  refine (Flags_first_bad_tag
            (GStruct badTagObject) badTagObject serveDefaults
            [commandField "usage:'serve files'"; plainField "FlagPort" "int" "default:8080"]
            [plainField "FlagLast" "chan int" ""]
            (plainField "Note" "string" "json:note")
            zeroMeta _ eq_refl eq_refl _ eq_refl).
  repeat (apply Forall_cons;
          [split; [reflexivity
                  | intros H; first [reflexivity | vm_compute in H; discriminate H]] |]).
  apply Forall_nil.
Defined.

Lemma build_stops_at_first_failure_witness :
  build [Some (GStruct serveObject); Some (GStruct (brokenObject "FlagAlpha")); None]
  = Err (ErrWrap (unsupportedFlagType "chan int") flagWrapMessage).
Proof.
  refine (proj1 (proj1 (build_stops_at_first_failure
                          [Some (GStruct serveObject)] [None] [serveCommand]
                          (Some (GStruct (brokenObject "FlagAlpha"))) _) _ _)).
  - repeat constructor.
  - reflexivity.
Defined.

Lemma integer_default_clamped_witness :
  flagFromType (L := exampleLibraries) (plainField "FlagN" "int" "")
               (mkMeta "" "" false "99999999999999999999")
  = Ok (IntFlag (mkFlag "n" "N" false "") 9223372036854775807) /\
  flagFromType (L := exampleLibraries) (plainField "FlagN" "uint" "")
               (mkMeta "" "" false "-5")
  = Ok (UintFlag (mkFlag "n" "N" false "") 0).
Proof.
  split.
  - exact (proj1 (integer_default_clamped (L := exampleLibraries)
                    "FlagN" "" "" "" false false "99999999999999999999"
                    ltac:(discriminate) eq_refl)).
  - refine (proj1 (proj2 (proj2 (proj2 (proj2 (proj2 (proj2
              (integer_default_clamped (L := exampleLibraries)
                 "FlagN" "" "" "" false false "5" _ eq_refl)))))))).
    discriminate.
Defined.

Lemma slice_default_nil_or_nonempty_witness :
  sliceDefaultLength (L := exampleLibraries)
    (IntSliceFlag (mkFlag "n" "N" false "") (Some [1; 0; 3]%Z)) = Some 3%nat.
Proof.
  refine (slice_default_nil_or_nonempty (L := exampleLibraries)
            (plainField "FlagN" "[]int" "") (mkMeta "" "" false "'1,x,3'")
            (IntSliceFlag (mkFlag "n" "N" false "") (Some [1; 0; 3]%Z)) _ eq_refl).
  simpl. tauto.
Defined.

Lemma duplicate_flag_names_accepted_witness :
  exists cmd,
    commandFromObject (L := exampleLibraries)
      (Some (GStruct (twinObject "Copy" "FlagFrom" "FlagTo" "path"
                                 (mkType "string" false) (mkType "int" false))))
    = Ok cmd /\
    map GetName (cmd_Flags cmd) = ["path"; "path"].
Proof.
  refine (duplicate_flag_names_accepted (L := exampleLibraries)
            "Copy" "FlagFrom" "FlagTo" "path" (mkType "string" false) (mkType "int" false)
            _ eq_refl eq_refl eq_refl eq_refl _ eq_refl); discriminate.
Defined.
